(** * Verification of the gateway layer of [prepline_general/api/app.py]

    The module wires a FastAPI application: two exception handlers (the error
    normalizer), an optional CORS middleware, two access-log filters, a health
    probe and a cached, customised OpenAPI description.  Each of these is
    embedded below as an executable Rocq definition that follows the Python
    text statement by statement; the theorems at the end of the file are
    stated over those definitions. *)

From Stdlib Require Import ZArith List Bool Ascii String DecimalString Lia.
Import ListNotations.

Set Warnings "-register-all".

Local Open Scope list_scope.
Local Open Scope string_scope.

(** ** Python strings *)

Module PyStr.

(** [startswith s p]: does [s] begin with [p]. *)
Fixpoint startswith (s p : string) : bool :=
  match p, s with
  | EmptyString, _ => true
  | String _ _, EmptyString => false
  | String a p', String b s' => Ascii.eqb a b && startswith s' p'
  end.

(** [str.find(sub)] scanning from offset [i]: the lowest index at which [sub]
    occurs, or [-1]. *)
Fixpoint find_from (i : Z) (s sub : string) : Z :=
  if startswith s sub then i
  else match s with
       | EmptyString => (-1)%Z
       | String _ s' => find_from (i + 1)%Z s' sub
       end.

Definition find (s sub : string) : Z := find_from 0%Z s sub.

(** [sub in s], as a proposition: [sub] occurs somewhere inside [s]. *)
Definition contains (s sub : string) : Prop :=
  exists pre post, s = pre ++ sub ++ post.

(** [str.split(sep)] for a one-character separator: the fields between the
    occurrences of [sep]; an empty string yields one empty field. *)
Fixpoint split_acc (sep : ascii) (cur : string) (s : string) : list string :=
  match s with
  | EmptyString => [cur]
  | String c s' =>
      if Ascii.eqb c sep then cur :: split_acc sep EmptyString s'
      else split_acc sep (cur ++ String c EmptyString) s'
  end.

Definition split (s : string) (sep : ascii) : list string :=
  split_acc sep EmptyString s.

(** Truth value of a string: empty is false. *)
Definition truthy (s : string) : bool :=
  match s with EmptyString => false | String _ _ => true end.

End PyStr.

(** ** JSON-like Python values *)

(** The description document is a tree of dicts, lists and scalars.  A dict
    keeps insertion order, so it is an association list; the operations
    below never create a duplicate key. *)
Inductive json : Type :=
| JNull
| JBool (b : bool)
| JInt (n : Z)
| JFloat (mantissa exponent10 : Z)
| JStr (s : string)
| JArr (items : list json)
| JObj (fields : list (string * json)).

(** Exceptions raised by subscripting, item assignment and [pop]. *)
Inductive error : Type :=
| KeyError (key : string)
| TypeError
| AttributeError.

Inductive result (A : Type) : Type :=
| Ok (a : A)
| Err (e : error).
Arguments Ok {A} a.
Arguments Err {A} e.

Definition bind {A B} (r : result A) (k : A -> result B) : result B :=
  match r with
  | Ok a => k a
  | Err e => Err e
  end.

Declare Scope result_scope.
Delimit Scope result_scope with result.
Notation "x <- c ;; k" := (bind c (fun x => k))
  (at level 61, c at next level, right associativity) : result_scope.
Notation "' pat <- c ;; k" :=
  (bind c (fun x => match x with pat => k end))
  (at level 61, pat pattern, c at next level, right associativity)
  : result_scope.
Local Open Scope result_scope.

Module Dict.

Fixpoint get (k : string) (d : list (string * json)) : option json :=
  match d with
  | [] => None
  | (k', v) :: d' => if String.eqb k k' then Some v else get k d'
  end.

(** [d[k] = v] on the field list: overwrite in place, or append. *)
Fixpoint set (k : string) (v : json) (d : list (string * json))
  : list (string * json) :=
  match d with
  | [] => [(k, v)]
  | (k', v') :: d' =>
      if String.eqb k k' then (k', v) :: d' else (k', v') :: set k v d'
  end.

Fixpoint remove (k : string) (d : list (string * json))
  : list (string * json) :=
  match d with
  | [] => []
  | (k', v) :: d' =>
      if String.eqb k k' then remove k d' else (k', v) :: remove k d'
  end.

Definition keys (d : list (string * json)) : list string := map fst d.

End Dict.

(** [d[k]] *)
Definition getitem (d : json) (k : string) : result json :=
  match d with
  | JObj fs =>
      match Dict.get k fs with
      | Some v => Ok v
      | None => Err (KeyError k)
      end
  | _ => Err TypeError
  end.

(** [d[k] = v]; the updated container is returned. *)
Definition setitem (d : json) (k : string) (v : json) : result json :=
  match d with
  | JObj fs => Ok (JObj (Dict.set k v fs))
  | _ => Err TypeError
  end.

(** [d.pop(k)]: the removed value and the updated container. *)
Definition pop (d : json) (k : string) : result (json * json) :=
  match d with
  | JObj fs =>
      match Dict.get k fs with
      | Some v => Ok (v, JObj (Dict.remove k fs))
      | None => Err (KeyError k)
      end
  | JArr _ => Err TypeError
  | _ => Err AttributeError
  end.

(** [d[k1][k2]...[kn]] *)
Fixpoint getpath (d : json) (path : list string) : result json :=
  match path with
  | [] => Ok d
  | k :: rest => child <- getitem d k ;; getpath child rest
  end.

(** A statement [d[k1]...[kn] <op>] where [op] mutates the object reached by
    the subscripts: the subscripts are evaluated outermost first, each one
    able to raise, and the mutation is seen through every enclosing
    container. *)
Fixpoint modify_at (path : list string) (op : json -> result json) (d : json)
  : result json :=
  match path with
  | [] => op d
  | k :: rest =>
      child <- getitem d k ;;
      child' <- modify_at rest op child ;;
      setitem d k child'
  end.

(** [d[k1]...[kn].pop(k)] *)
Fixpoint pop_at (path : list string) (k : string) (d : json)
  : result (json * json) :=
  match path with
  | [] => pop d k
  | k0 :: rest =>
      child <- getitem d k0 ;;
      '(v, child') <- pop_at rest k child ;;
      d' <- setitem d k0 child' ;;
      Ok (v, d')
  end.

(** Truth value of a Python object, as tested by [if x:]. *)
Definition truthy (v : json) : bool :=
  match v with
  | JNull => false
  | JBool b => b
  | JInt n => negb (Z.eqb n 0)
  | JFloat m _ => negb (Z.eqb m 0)
  | JStr s => PyStr.truthy s
  | JArr l => match l with [] => false | _ => true end
  | JObj l => match l with [] => false | _ => true end
  end.

(** ** The process state the module reads and writes *)

(** [os.environ] *)
Definition environ := list (string * string).

Fixpoint environ_get (env : environ) (k : string) : option string :=
  match env with
  | [] => None
  | (k', v) :: env' => if String.eqb k k' then Some v else environ_get env' k
  end.

Record Request : Type := {
  method : string;
  url_path : string;
  req_headers : list (string * string);
  req_body : string
}.

(** A [JSONResponse]: [headers] are the extra headers given to the
    constructor (none anywhere in this module). *)
Record Response : Type := {
  status_code : Z;
  content : json;
  headers : list (string * string)
}.

Definition JSONResponse (status : Z) (body : json) : Response :=
  {| status_code := status; content := body; headers := [] |}.

(** Exceptions raised while a route is handled, as the two handlers of the
    module see them.  The handler table is keyed by class: [HTTPException]
    (and its subclasses) and, for every other class, [Exception].  The
    entries the framework registers on its own account (for its request
    validation errors) are not part of the module. *)
Inductive exn : Type :=
| HTTPException (status : Z) (detail : string)
| Exception (message : string).

(** [str(e)].  An [HTTPException] prints as status and detail; the handler
    table never hands one to [error_handler]. *)
Definition str (e : exn) : string :=
  match e with
  | HTTPException status detail =>
      NilEmpty.string_of_int (Z.to_int status) ++ ": " ++ detail
  | Exception message => message
  end.

Definition INFO : Z := 20.
Definition ERROR : Z := 40.

(** A [logging.LogRecord]; [getMessage] is the rendered message. *)
Record LogRecord : Type := {
  name : string;
  levelno : Z;
  getMessage : string
}.

(** The two [logging.Filter] subclasses of the module. *)
Inductive Filter : Type :=
| HealthCheckFilter
| MetricsCheckFilter.

Definition filter (f : Filter) (record : LogRecord) : bool :=
  match f with
  | HealthCheckFilter =>
      Z.eqb (PyStr.find (getMessage record) "/healthcheck") (-1)
  | MetricsCheckFilter =>
      Z.eqb (PyStr.find (getMessage record) "/metrics") (-1)
  end.

Record CORSMiddleware : Type := {
  allow_origins : list string;
  allow_methods : list string;
  allow_headers : list string
}.

(** A route of the table.  [operation] and [schemas] stand for the operation
    object and the component schemas the generator derives from the
    endpoint's signature. *)
Record APIRoute : Type := {
  path : string;
  methods : list string;
  route_status_code : option Z;
  include_in_schema : bool;
  operation : json;
  schemas : list (string * json)
}.

(** The application object together with the logging state of the process.
    [records] holds the records a logger accepted (not disabled, every
    filter of that logger passed); level thresholds and output handlers are
    configured outside the module.  [generator_runs] is instrumentation: it
    counts the calls made to the description generator. *)
Record World : Type := {
  openapi_schema : option json;
  user_middleware : list CORSMiddleware;
  routes : list APIRoute;
  disabled_loggers : list string;
  logger_filters : list (string * Filter);
  records : list LogRecord;
  generator_runs : nat
}.

Definition with_openapi_schema (v : option json) (w : World) : World :=
  {| openapi_schema := v;
     user_middleware := user_middleware w;
     routes := routes w;
     disabled_loggers := disabled_loggers w;
     logger_filters := logger_filters w;
     records := records w;
     generator_runs := generator_runs w |}.

Definition with_user_middleware (v : list CORSMiddleware) (w : World) : World :=
  {| openapi_schema := openapi_schema w;
     user_middleware := v;
     routes := routes w;
     disabled_loggers := disabled_loggers w;
     logger_filters := logger_filters w;
     records := records w;
     generator_runs := generator_runs w |}.

Definition with_routes (v : list APIRoute) (w : World) : World :=
  {| openapi_schema := openapi_schema w;
     user_middleware := user_middleware w;
     routes := v;
     disabled_loggers := disabled_loggers w;
     logger_filters := logger_filters w;
     records := records w;
     generator_runs := generator_runs w |}.

Definition with_disabled_loggers (v : list string) (w : World) : World :=
  {| openapi_schema := openapi_schema w;
     user_middleware := user_middleware w;
     routes := routes w;
     disabled_loggers := v;
     logger_filters := logger_filters w;
     records := records w;
     generator_runs := generator_runs w |}.

Definition with_logger_filters (v : list (string * Filter)) (w : World)
  : World :=
  {| openapi_schema := openapi_schema w;
     user_middleware := user_middleware w;
     routes := routes w;
     disabled_loggers := disabled_loggers w;
     logger_filters := v;
     records := records w;
     generator_runs := generator_runs w |}.

Definition with_records (v : list LogRecord) (w : World) : World :=
  {| openapi_schema := openapi_schema w;
     user_middleware := user_middleware w;
     routes := routes w;
     disabled_loggers := disabled_loggers w;
     logger_filters := logger_filters w;
     records := v;
     generator_runs := generator_runs w |}.

Definition with_generator_runs (v : nat) (w : World) : World :=
  {| openapi_schema := openapi_schema w;
     user_middleware := user_middleware w;
     routes := routes w;
     disabled_loggers := disabled_loggers w;
     logger_filters := logger_filters w;
     records := records w;
     generator_runs := v |}.

(** Computations over the world that may raise. *)
Definition M (A : Type) : Type := World -> result A * World.

Definition ret {A} (a : A) : M A := fun w => (Ok a, w).
Definition mbind {A B} (c : M A) (k : A -> M B) : M B :=
  fun w => match c w with
           | (Ok a, w') => k a w'
           | (Err e, w') => (Err e, w')
           end.

Notation "x <~ c ;; k" := (mbind c (fun x => k))
  (at level 61, c at next level, right associativity).
Notation "c ;;; k" := (mbind c (fun _ => k))
  (at level 61, right associativity).

Definition modify (f : World -> World) : M unit := fun w => (Ok tt, f w).

(** *** Logging *)

Definition filters_of (w : World) (logger : string) : list Filter :=
  map snd (List.filter (fun p => String.eqb (fst p) logger) (logger_filters w)).

Definition is_disabled (w : World) (logger : string) : bool :=
  existsb (String.eqb logger) (disabled_loggers w).

(** Does the logger let the record through: it is not disabled and none of
    its filters rejects the record. *)
Definition accepts (w : World) (record : LogRecord) : bool :=
  negb (is_disabled w (name record))
  && forallb (fun f => filter f record) (filters_of w (name record)).

(** [Logger.handle]: an accepted record is emitted as it is, any other is
    dropped. *)
Definition handle (record : LogRecord) : M unit :=
  modify (fun w =>
    if accepts w record then with_records (records w ++ [record])%list w
    else w).

(** [logger = logging.getLogger("unstructured_api")] *)
Definition logger : string := "unstructured_api".

Definition logger_error (msg : string) : M unit :=
  handle {| name := logger; levelno := ERROR; getMessage := msg |}.

Definition logger_info (msg : string) : M unit :=
  handle {| name := logger; levelno := INFO; getMessage := msg |}.

Definition addFilter (logger_name : string) (f : Filter) : M unit :=
  modify (fun w =>
    with_logger_filters (logger_filters w ++ [(logger_name, f)])%list w).

Definition disable_logger (logger_name : string) : M unit :=
  modify (fun w =>
    with_disabled_loggers (logger_name :: disabled_loggers w) w).

(** *** Error normalizer *)

(** [@app.exception_handler(HTTPException)] *)
Definition http_error_handler (request : Request) (e_status : Z)
  (e_detail : string) : M Response :=
  logger_error e_detail ;;;
  ret (JSONResponse e_status (JObj [("detail", JStr e_detail)])).

(** [@app.exception_handler(Exception)] *)
Definition error_handler (request : Request) (e : exn) : M Response :=
  ret (JSONResponse 500 (JObj [("detail", JStr (str e))])).

(** The handler table built by the two decorators: lookup is by the class
    of the exception. *)
Definition exception_handler (request : Request) (e : exn) : M Response :=
  match e with
  | HTTPException status detail => http_error_handler request status detail
  | Exception _ => error_handler request e
  end.

(** *** Health probe *)

Definition healthcheck (request : Request) : json :=
  JObj [("healthcheck", JStr "HEALTHCHECK STATUS: EVERYTHING OK!")].

Definition HTTP_200_OK : Z := 200.

(** The route made by
    [@app.get("/healthcheck", status_code=status.HTTP_200_OK,
    include_in_schema=False)]; the probe declares no parameters or models. *)
Definition healthcheck_route : APIRoute :=
  {| path := "/healthcheck";
     methods := ["GET"];
     route_status_code := Some HTTP_200_OK;
     include_in_schema := false;
     operation := JObj [];
     schemas := [] |}.

(** Serving the probe: the endpoint's return value is sent as JSON with the
    route's status code. *)
Definition serve_healthcheck (request : Request) : M Response :=
  ret (JSONResponse
         (match route_status_code healthcheck_route with
          | Some s => s
          | None => 200%Z
          end)
         (healthcheck request)).

(** ** OpenAPI description *)

(** Arguments of the [FastAPI(...)] constructor call. *)
Definition app_title : string := "Unstructured Pipeline API".
Definition app_summary : string :=
  "Partition documents with the Unstructured library".
Definition app_version : string := "0.0.57".
Definition app_description : string := "".
Definition docs_url : string := "/general/docs".
Definition openapi_url : string := "/general/openapi.json".

Definition app_servers : json :=
  JArr [ JObj [ ("url", JStr "https://api.unstructured.io");
                ("description", JStr "Hosted API");
                ("x-speakeasy-server-id", JStr "prod") ];
         JObj [ ("url", JStr "http://localhost:8000");
                ("description", JStr "Development server");
                ("x-speakeasy-server-id", JStr "local") ] ].

Definition app_openapi_tags : json := JArr [ JObj [ ("name", JStr "general") ] ].

(** Keyword arguments of the [get_openapi] call. *)
Record OpenAPIArgs : Type := {
  title : string;
  version : string;
  summary : string;
  description : string;
  servers : json;
  arg_routes : list APIRoute;
  tags : json
}.

Definition security : json := JArr [ JObj [ ("ApiKeyAuth", JArr []) ] ].

Definition retries : json :=
  JObj [ ("strategy", JStr "backoff");
         ("backoff",
          JObj [ ("initialInterval", JInt 500);
                 ("maxInterval", JInt 60000);
                 ("maxElapsedTime", JInt 3600000);
                 ("exponent", JFloat 15 (-1)) ]);
         ("statusCodes", JArr [ JStr "5xx" ]);
         ("retryConnectionErrors", JBool true) ].

Definition securitySchemes : json :=
  JObj [ ("ApiKeyAuth",
          JObj [ ("type", JStr "apiKey");
                 ("name", JStr "unstructured-api-key");
                 ("in", JStr "header");
                 ("x-speakeasy-example", JStr "YOUR_API_KEY") ]) ].

(** The hand-written value assigned to
    [components.schemas.partition_parameters.properties]. *)
Definition partition_properties : json :=
  JObj [
    ("files",
     JObj [ ("type", JStr "string");
            ("format", JStr "binary");
            ("description", JStr "The file to extract");
            ("required", JStr "true");
            ("examples",
             JArr [ JObj [ ("summary", JStr "File to be partitioned");
                           ("externalValue", JStr "https://github.com/Unstructured-IO/unstructured/blob/98d3541909f64290b5efb65a226fc3ee8a7cc5ee/example-docs/layout-parser-paper.pdf") ] ]) ]);
    ("strategy",
     JObj [ ("type", JStr "string");
            ("title", JStr "Strategy");
            ("description", JStr "The strategy to use for partitioning PDF/image. Options are fast, hi_res, auto. Default: auto");
            ("examples", JArr [ JStr "hi_res" ]) ]);
    ("gz_uncompressed_content_type",
     JObj [ ("type", JStr "string");
            ("title", JStr "Uncompressed Content Type");
            ("description", JStr "If file is gzipped, use this content type after unzipping");
            ("examples", JArr [ JStr "application/pdf" ]) ]);
    ("output_format",
     JObj [ ("type", JStr "string");
            ("title", JStr "Output Format");
            ("description", JStr "The format of the response. Supported formats are application/json and text/csv. Default: application/json.");
            ("examples", JArr [ JStr "application/json" ]) ]);
    ("coordinates",
     JObj [ ("type", JStr "boolean");
            ("title", JStr "Coordinates");
            ("description", JStr "If true, return coordinates for each element. Default: false") ]);
    ("encoding",
     JObj [ ("type", JStr "string");
            ("title", JStr "Encoding");
            ("description", JStr "The encoding method used to decode the text input. Default: utf-8");
            ("examples", JArr [ JStr "utf-8" ]) ]);
    ("hi_res_model_name",
     JObj [ ("type", JStr "string");
            ("title", JStr "Hi Res Model Name");
            ("description", JStr "The name of the inference model used when strategy is hi_res");
            ("examples", JArr [ JStr "yolox" ]) ]);
    ("include_page_breaks",
     JObj [ ("type", JStr "boolean");
            ("title", JStr "Include Page Breaks");
            ("description", JStr "If True, the output will include page breaks if the filetype supports it. Default: false") ]);
    ("languages",
     JObj [ ("items",
             JObj [ ("type", JStr "string");
                    ("examples", JArr [ JStr "eng" ]) ]);
            ("type", JStr "array");
            ("title", JStr "OCR Languages");
            ("default", JArr []);
            ("description", JStr "The languages present in the document, for use in partitioning and/or OCR");
            ("examples", JArr [ JStr "[eng]" ]) ]);
    ("pdf_infer_table_structure",
     JObj [ ("type", JStr "boolean");
            ("title", JStr "Pdf Infer Table Structure");
            ("description", JStr "If True and strategy=hi_res, any Table Elements extracted from a PDF will include an additional metadata field, 'text_as_html', where the value (string) is a just a transformation of the data into an HTML <table>.") ]);
    ("skip_infer_table_types",
     JObj [ ("items",
             JObj [ ("type", JStr "string");
                    ("examples", JArr [ JStr "pdf" ]) ]);
            ("type", JStr "array");
            ("title", JStr "Skip Infer Table Types");
            ("description", JStr "The document types that you want to skip table extraction with. Default: ['pdf', 'jpg', 'png']") ]);
    ("xml_keep_tags",
     JObj [ ("type", JStr "boolean");
            ("title", JStr "Xml Keep Tags");
            ("description", JStr "If True, will retain the XML tags in the output. Otherwise it will simply extract the text from within the tags. Only applies to partition_xml.") ]);
    ("chunking_strategy",
     JObj [ ("type", JStr "string");
            ("title", JStr "Chunking Strategy");
            ("description", JStr "Use one of the supported strategies to chunk the returned elements. Currently supports: by_title");
            ("examples", JArr [ JStr "by_title" ]) ]);
    ("multipage_sections",
     JObj [ ("type", JStr "boolean");
            ("title", JStr "Multipage Sections");
            ("description", JStr "If chunking strategy is set, determines if sections can span multiple sections. Default: true") ]);
    ("combine_under_n_chars",
     JObj [ ("type", JStr "integer");
            ("title", JStr "Combine Under N Chars");
            ("description", JStr "If chunking strategy is set, combine elements until a section reaches a length of n chars. Default: 500");
            ("examples", JArr [ JInt 500 ]) ]);
    ("new_after_n_chars",
     JObj [ ("type", JStr "integer");
            ("title", JStr "New after n chars");
            ("description", JStr "If chunking strategy is set, cut off new sections after reaching a length of n chars (soft max). Default: 1500");
            ("examples", JArr [ JInt 1500 ]) ]);
    ("max_characters",
     JObj [ ("type", JStr "integer");
            ("title", JStr "Max Characters");
            ("description", JStr "If chunking strategy is set, cut off new sections after reaching a length of n chars (hard max). Default: 1500");
            ("examples", JArr [ JInt 1500 ]) ]) ].

(** The value assigned to [components.schemas.Elements]. *)
Definition elements_schema : json :=
  JObj [ ("type", JStr "array");
         ("items",
          JObj [ ("Element",
                  JObj [ ("type", JStr "object");
                         ("properties",
                          JObj [ ("type", JObj []);
                                 ("element_id", JObj []);
                                 ("metadata", JObj []);
                                 ("text", JObj []) ]) ]) ]) ].

Definition partition_path : string := "/general/v0/general".

Definition request_schema_path : list string :=
  [ "paths"; partition_path; "post"; "requestBody"; "content";
    "multipart/form-data"; "schema" ].

Definition response_content_path : list string :=
  [ "paths"; partition_path; "post"; "responses"; "200"; "content";
    "application/json" ].

Definition schemas_path : list string := [ "components"; "schemas" ].

Definition partition_parameters_path : list string :=
  [ "components"; "schemas"; "partition_parameters" ].

Definition partition_parameters_ref : string :=
  "#/components/schemas/partition_parameters".

Definition elements_ref : string := "#/components/schemas/Elements".

(** The statements of [custom_openapi] that follow the [get_openapi] call,
    in source order, applied to the local [openapi_schema].  An exception
    leaves the function at the statement that raises it. *)
Definition customize (openapi_schema : json) : result json :=
  d <- setitem openapi_schema "security" security ;;
  d <- setitem d "x-speakeasy-retries" retries ;;
  d <- modify_at request_schema_path
         (fun o => setitem o "$ref" (JStr partition_parameters_ref)) d ;;
  d <- modify_at response_content_path
         (fun o => setitem o "schema" (JObj [ ("$ref", JStr elements_ref) ]))
         d ;;
  d <- modify_at [ "components" ]
         (fun o => setitem o "securitySchemes" securitySchemes) d ;;
  '(body, d) <- pop_at schemas_path "Body_partition" d ;;
  d <- modify_at schemas_path
         (fun o => setitem o "partition_parameters" body) d ;;
  d <- modify_at partition_parameters_path
         (fun o => setitem o "title" (JStr "Partition Parameters")) d ;;
  d <- modify_at partition_parameters_path
         (fun o => setitem o "properties" partition_properties) d ;;
  d <- modify_at schemas_path
         (fun o => setitem o "Elements" elements_schema) d ;;
  Ok d.

(** The keyword arguments [custom_openapi] passes to the generator. *)
Definition openapi_args (w : World) : OpenAPIArgs :=
  {| title := app_title;
     version := app_version;
     summary := app_summary;
     description := app_description;
     servers := app_servers;
     arg_routes := routes w;
     tags := app_openapi_tags |}.

Section Synthesizer.

(** [fastapi.openapi.utils.get_openapi], the generic generator.  It builds a
    fresh document on every call. *)
Variable get_openapi : OpenAPIArgs -> json.

Definition call_get_openapi : M json :=
  fun w =>
    (Ok (get_openapi (openapi_args w)),
     with_generator_runs (S (generator_runs w)) w).

Definition set_openapi_schema (doc : json) : M unit :=
  modify (with_openapi_schema (Some doc)).

(** A step on the local document: its exception, if any, propagates. *)
Definition lift {A} (r : result A) : M A := fun w => (r, w).

(** The body of [custom_openapi] below the cache test. *)
Definition synthesize : M json :=
  openapi_schema <~ call_get_openapi ;;
  doc <~ lift (customize openapi_schema) ;;
  set_openapi_schema doc ;;;
  ret doc.

(** [if app.openapi_schema: return app.openapi_schema]: [None] and an empty
    document both count as absent. *)
Definition custom_openapi : M json :=
  fun w =>
    match openapi_schema w with
    | Some cached => if truthy cached then ret cached w else synthesize w
    | None => synthesize w
    end.

End Synthesizer.

(** ** The generic generator *)

Module Generator.

Definition lower_ascii (c : ascii) : ascii :=
  let n := nat_of_ascii c in
  if (Nat.leb 65 n && Nat.leb n 90)%bool then ascii_of_nat (n + 32) else c.

Fixpoint lower (s : string) : string :=
  match s with
  | EmptyString => EmptyString
  | String c s' => String (lower_ascii c) (lower s')
  end.

(** [paths.setdefault(path, {})[method] = operation] *)
Definition add_operation (p m : string) (op : json)
  (paths : list (string * json)) : list (string * json) :=
  let item :=
    match Dict.get p paths with
    | Some (JObj fs) => fs
    | _ => []
    end in
  Dict.set p (JObj (Dict.set m op item)) paths.

Definition add_route (r : APIRoute) (paths : list (string * json))
  : list (string * json) :=
  if include_in_schema r then
    fold_left (fun acc m => add_operation (path r) (lower m) (operation r) acc)
              (methods r) paths
  else paths.

Definition add_schemas (r : APIRoute) (defs : list (string * json))
  : list (string * json) :=
  if include_in_schema r then
    fold_left (fun acc kv => Dict.set (fst kv) (snd kv) acc) (schemas r) defs
  else defs.

Definition optional (k : string) (present : bool) (v : json)
  : list (string * json) :=
  if present then [(k, v)] else [].

(** Modelled from the spec: [get_openapi] belongs to the FastAPI library and
    is not part of the module.  The spec describes its result as the
    baseline description computed "from the live route table (paths,
    default schemas, tags, servers)", a tree of "title, version, servers,
    ..., paths, component schemas", where each route descriptor carries an
    "inclusion flag in the published description".  Accordingly: a route
    contributes its operation (under its path and lower-cased method) and
    its component schemas when, and only when, its flag is set; empty
    optional parts are left out. *)
Definition get_openapi (a : OpenAPIArgs) : json :=
  let paths := fold_left (fun acc r => add_route r acc) (arg_routes a) [] in
  let defs := fold_left (fun acc r => add_schemas r acc) (arg_routes a) [] in
  JObj ([ ("openapi", JStr "3.1.0");
          ("info",
           JObj ([ ("title", JStr (title a)) ]
                 ++ optional "summary" (PyStr.truthy (summary a))
                      (JStr (summary a))
                 ++ optional "description" (PyStr.truthy (description a))
                      (JStr (description a))
                 ++ [ ("version", JStr (version a)) ])%list) ]
        ++ optional "servers" (truthy (servers a)) (servers a)
        ++ [ ("paths", JObj paths) ]
        ++ optional "components"
             (match defs with [] => false | _ => true end)
             (JObj [ ("schemas", JObj defs) ])
        ++ optional "tags" (truthy (tags a)) (tags a))%list.

End Generator.

(** ** Module initialisation *)

(** The process before the module's first statement has run, [app] being a
    fresh [FastAPI] object.  The documentation routes the framework adds to
    every application are plain routes, not API routes; the generator skips
    them and they are left out of [routes]. *)
Definition initial_world : World :=
  {| openapi_schema := None;
     user_middleware := [];
     routes := [];
     disabled_loggers := [];
     logger_filters := [];
     records := [];
     generator_runs := 0 |}.

Definition add_middleware (m : CORSMiddleware) : M unit :=
  modify (fun w => with_user_middleware (m :: user_middleware w) w).

Definition add_routes (rs : list APIRoute) : M unit :=
  modify (fun w => with_routes (routes w ++ rs)%list w).

Definition when (b : bool) (c : M unit) : M unit :=
  if b then c else ret tt.

(** The module's top-level statements, in source order.  [general_routes]
    is the route table of [general_router], imported from the sibling
    module [.general].  The last assignment, [app.openapi = custom_openapi],
    stores the function without calling it, so it leaves the state as it
    is. *)
Definition module_init (env : environ) (general_routes : list APIRoute)
  : M unit :=
  when (match environ_get env "ENV" with
        | Some v => existsb (String.eqb v) [ "dev"; "prod" ]
        | None => false
        end)
       (disable_logger "uvicorn.error") ;;;
  (let allowed_origins := environ_get env "ALLOWED_ORIGINS" in
   match allowed_origins with
   | Some v =>
       when (PyStr.truthy v)
            (add_middleware
               {| allow_origins := PyStr.split v ","%char;
                  allow_methods := [ "OPTIONS"; "POST" ];
                  allow_headers := [ "Content-Type" ] |})
   | None => ret tt
   end) ;;;
  add_routes general_routes ;;;
  addFilter "uvicorn.access" HealthCheckFilter ;;;
  addFilter "uvicorn.access" MetricsCheckFilter ;;;
  add_routes [ healthcheck_route ] ;;;
  logger_info "Started Unstructured API".

Definition startup (env : environ) (general_routes : list APIRoute)
  : result unit * World :=
  module_init env general_routes initial_world.

(** ** Middleware stack *)

(** Starlette's [CORSMiddleware.is_allowed_origin] for a configuration with
    no origin pattern: every origin when the list holds ["*"], else the
    listed ones. *)
Definition is_allowed_origin (m : CORSMiddleware) (origin : string) : bool :=
  existsb (String.eqb "*") (allow_origins m)
  || existsb (String.eqb origin) (allow_origins m).

Section Middleware.

(** What an installed CORS middleware does to the response of a request;
    the behaviour is Starlette's. *)
Variable cors_send : CORSMiddleware -> Request -> Response -> Response.

(** A response travels outwards through the installed middleware. *)
Definition send (w : World) (request : Request) (response : Response)
  : Response :=
  fold_right (fun m r => cors_send m request r) response (user_middleware w).

End Middleware.

(** ** A sample route table for [general_router] *)

Module Sample.

Definition body_partition : json :=
  JObj [ ("properties",
          JObj [ ("files",
                  JObj [ ("items", JObj [ ("type", JStr "string");
                                          ("format", JStr "binary") ]);
                         ("type", JStr "array");
                         ("title", JStr "Files") ]) ]);
         ("type", JStr "object");
         ("title", JStr "Body_partition") ].

Definition partition_operation : json :=
  JObj [ ("tags", JArr [ JStr "general" ]);
         ("summary", JStr "Partition");
         ("operationId", JStr "partition");
         ("requestBody",
          JObj [ ("content",
                  JObj [ ("multipart/form-data",
                          JObj [ ("schema",
                                  JObj [ ("$ref", JStr "#/components/schemas/Body_partition") ]) ]) ]) ]);
         ("responses",
          JObj [ ("200",
                  JObj [ ("description", JStr "Successful Response");
                         ("content",
                          JObj [ ("application/json",
                                  JObj [ ("schema", JObj []) ]) ]) ]) ]) ].

Definition partition_route : APIRoute :=
  {| path := "/general/v0/general";
     methods := [ "POST" ];
     route_status_code := None;
     include_in_schema := true;
     operation := partition_operation;
     schemas := [ ("Body_partition", body_partition) ] |}.

Definition general_routes : list APIRoute := [ partition_route ].

(** A router whose partition route was renamed. *)
Definition renamed_routes : list APIRoute :=
  [ {| path := "/general/v1/general";
       methods := [ "POST" ];
       route_status_code := None;
       include_in_schema := true;
       operation := partition_operation;
       schemas := [ ("Body_partition", body_partition) ] |} ].

Definition request : Request :=
  {| method := "GET"; url_path := "/healthcheck";
     req_headers := [ ("origin", "https://a.com") ]; req_body := "" |}.

(** The process right after import, and its first description request. *)
Definition world : World := snd (startup [] general_routes).

Definition first_call : result json * World :=
  custom_openapi Generator.get_openapi world.

Definition document : json :=
  match fst first_call with
  | Ok d => d
  | Err _ => JNull
  end.

Definition broken_world : World := snd (startup [] renamed_routes).

End Sample.

(** ** Notions used by the statements *)

(** Resolution of a local reference ["#/k1/.../kn"] against a document. *)
Definition resolve (doc : json) (ref : string) : result json :=
  match PyStr.split ref "/"%char with
  | "#" :: keys => getpath doc keys
  | _ => Err (KeyError ref)
  end.

(** The subscript chains that [customize] reads from the baseline. *)
Definition body_partition_path : list string :=
  [ "components"; "schemas"; "Body_partition" ].

Definition resolves (doc : json) (keys : list string) : bool :=
  match getpath doc keys with
  | Ok _ => true
  | Err _ => false
  end.

Definition has_expected_keys (baseline : json) : bool :=
  resolves baseline request_schema_path
  && resolves baseline response_content_path
  && resolves baseline body_partition_path.

(** [n] successive invocations of the synthesizer. *)
Fixpoint call_n (get_openapi : OpenAPIArgs -> json) (n : nat) (w : World)
  : list (result json) * World :=
  match n with
  | O => ([], w)
  | S n' =>
      let (r, w1) := custom_openapi get_openapi w in
      let (rs, w2) := call_n get_openapi n' w1 in
      (r :: rs, w2)
  end.

(** A world of the running application: what module initialisation set up
    (middleware, route table, logger configuration) is still in place; the
    emitted records, the cached description and the generator count are
    free. *)
Definition Serving (env : environ) (general_routes : list APIRoute)
  (w : World) : Prop :=
  let w0 := snd (startup env general_routes) in
  user_middleware w = user_middleware w0
  /\ routes w = routes w0
  /\ disabled_loggers w = disabled_loggers w0
  /\ logger_filters w = logger_filters w0.

(** The middleware installed for a non-empty value [v] of
    [ALLOWED_ORIGINS]. *)
Definition cors_config (v : string) : CORSMiddleware :=
  {| allow_origins := PyStr.split v ","%char;
     allow_methods := [ "OPTIONS"; "POST" ];
     allow_headers := [ "Content-Type" ] |}.

(** Names of the fields of a dict. *)
Definition field_names (v : json) : list string :=
  match v with
  | JObj fs => Dict.keys fs
  | _ => []
  end.

(** A cache slot that [custom_openapi] treats as empty. *)
Definition unset (cache : option json) : Prop :=
  match cache with
  | Some doc => truthy doc = false
  | None => True
  end.

(** An operation that leaves the item under [k] alone. *)
Definition preserves (k : string) (op : json -> result json) : Prop :=
  forall o o', op o = Ok o' -> getitem o' k = getitem o k.

(** The effect of [pop_at] on the document, as a chained update. *)
Definition pop_op (k : string) (o : json) : result json :=
  '(_, o') <- pop o k ;; Ok o'.

(** The intermediate documents of a run of [customize] that reaches its
    last statement. *)
Inductive customized (b d : json) : Prop :=
| customized_intro (d1 d2 d3 d4 d5 body d6 d7 d8 d9 : json) :
    setitem b "security" security = Ok d1 ->
    setitem d1 "x-speakeasy-retries" retries = Ok d2 ->
    modify_at request_schema_path
      (fun o => setitem o "$ref" (JStr partition_parameters_ref)) d2 = Ok d3 ->
    modify_at response_content_path
      (fun o => setitem o "schema" (JObj [ ("$ref", JStr elements_ref) ])) d3
    = Ok d4 ->
    modify_at [ "components" ]
      (fun o => setitem o "securitySchemes" securitySchemes) d4 = Ok d5 ->
    pop_at schemas_path "Body_partition" d5 = Ok (body, d6) ->
    modify_at schemas_path
      (fun o => setitem o "partition_parameters" body) d6 = Ok d7 ->
    modify_at partition_parameters_path
      (fun o => setitem o "title" (JStr "Partition Parameters")) d7 = Ok d8 ->
    modify_at partition_parameters_path
      (fun o => setitem o "properties" partition_properties) d8 = Ok d9 ->
    modify_at schemas_path
      (fun o => setitem o "Elements" elements_schema) d9 = Ok d ->
    customized b d.

(** The worlds the process goes through: module initialisation, then any
    sequence of description requests, handled exceptions, health probes and
    records logged by any logger. *)
Inductive reachable (get_openapi : OpenAPIArgs -> json) (env : environ)
  (general_routes : list APIRoute) : World -> Prop :=
| reach_startup :
    reachable get_openapi env general_routes (snd (startup env general_routes))
| reach_custom_openapi w :
    reachable get_openapi env general_routes w ->
    reachable get_openapi env general_routes (snd (custom_openapi get_openapi w))
| reach_exception_handler w request e :
    reachable get_openapi env general_routes w ->
    reachable get_openapi env general_routes
      (snd (exception_handler request e w))
| reach_serve_healthcheck w request :
    reachable get_openapi env general_routes w ->
    reachable get_openapi env general_routes (snd (serve_healthcheck request w))
| reach_handle w record :
    reachable get_openapi env general_routes w ->
    reachable get_openapi env general_routes (snd (handle record w)).

(** The cache is empty or holds the customised baseline. *)
Definition cache_ok (get_openapi : OpenAPIArgs -> json) (w : World) : Prop :=
  openapi_schema w = None
  \/ exists doc, openapi_schema w = Some doc
                 /\ customize (get_openapi (openapi_args w)) = Ok doc.

(** ** Further notions *)

(** The chain [keys] leads to a dict of the document. *)
Definition dict_at (doc : json) (keys : list string) : Prop :=
  exists fs, getpath doc keys = Ok (JObj fs).

(** [sep.join(l)] *)
Fixpoint join (sep : string) (l : list string) : string :=
  match l with
  | [] => EmptyString
  | x :: xs =>
      match xs with
      | [] => x
      | _ :: _ => x ++ sep ++ join sep xs
      end
  end.

(** Does the character occur in the string; how many times. *)
Fixpoint occurs (c : ascii) (s : string) : bool :=
  match s with
  | EmptyString => false
  | String a s' => Ascii.eqb a c || occurs c s'
  end.

Fixpoint count_char (c : ascii) (s : string) : nat :=
  match s with
  | EmptyString => 0
  | String a s' => (if Ascii.eqb a c then 1 else 0) + count_char c s'
  end.

(** [later g w w']: the process can go from [w] to [w'] by description
    requests, handled exceptions, health probes and logged records. *)
Inductive later (get_openapi : OpenAPIArgs -> json) (w : World)
  : World -> Prop :=
| later_refl : later get_openapi w w
| later_custom_openapi w' :
    later get_openapi w w' ->
    later get_openapi w (snd (custom_openapi get_openapi w'))
| later_exception_handler w' request e :
    later get_openapi w w' ->
    later get_openapi w (snd (exception_handler request e w'))
| later_serve_healthcheck w' request :
    later get_openapi w w' ->
    later get_openapi w (snd (serve_healthcheck request w'))
| later_handle w' record :
    later get_openapi w w' ->
    later get_openapi w (snd (handle record w')).

(** Route tables of [general_router] on which the customisation fails
    after its first statements. *)
Module Cases.

(** The partition operation without its 200 response. *)
Definition operation_without_200 : json :=
  JObj [ ("operationId", JStr "partition");
         ("requestBody",
          JObj [ ("content",
                  JObj [ ("multipart/form-data",
                          JObj [ ("schema",
                                  JObj [ ("$ref", JStr "#/components/schemas/Body_partition") ]) ]) ]) ]);
         ("responses",
          JObj [ ("422",
                  JObj [ ("description", JStr "Validation Error") ]) ]) ].

Definition routes_without_200 : list APIRoute :=
  [ {| path := "/general/v0/general";
       methods := [ "POST" ];
       route_status_code := None;
       include_in_schema := true;
       operation := operation_without_200;
       schemas := [ ("Body_partition", Sample.body_partition) ] |} ].

(** The request-body component under another generated name. *)
Definition routes_other_component : list APIRoute :=
  [ {| path := "/general/v0/general";
       methods := [ "POST" ];
       route_status_code := None;
       include_in_schema := true;
       operation := Sample.partition_operation;
       schemas := [ ("Body_partition_general_v0_general_post",
                     Sample.body_partition);
                    ("HTTPValidationError", JObj [ ("type", JStr "object") ]) ] |} ].

Definition world_without_200 : World := snd (startup [] routes_without_200).

Definition world_other_component : World :=
  snd (startup [] routes_other_component).

(** The sample router with a second component beside the request body. *)
Definition routes_two_components : list APIRoute :=
  [ {| path := "/general/v0/general";
       methods := [ "POST" ];
       route_status_code := None;
       include_in_schema := true;
       operation := Sample.partition_operation;
       schemas := [ ("Body_partition", Sample.body_partition);
                    ("HTTPValidationError", JObj [ ("type", JStr "object") ]) ] |} ].

Definition world_two_components : World :=
  snd (startup [] routes_two_components).

End Cases.

(** * Properties *)

(** ** Strings *)

Lemma startswith_iff (s p : string) :
  PyStr.startswith s p = true <-> exists t, s = p ++ t.
Proof.
  revert s; induction p as [|a p IH]; intros s; simpl.
  - split; [intros _; now exists s | intros _; now destruct s].
  - destruct s as [|b s]; simpl.
    + split; [discriminate | intros [t H]; discriminate].
    + rewrite andb_true_iff, Ascii.eqb_eq, IH. split.
      * intros [-> [t ->]]. now exists t.
      * intros [t H]. injection H as -> ->. split; [reflexivity | now exists t].
Qed.

Lemma contains_cons (c : ascii) (s sub : string) :
  PyStr.contains (String c s) sub <->
  PyStr.startswith (String c s) sub = true \/ PyStr.contains s sub.
Proof.
  unfold PyStr.contains. split.
  - intros [[|c' pre] [post H]].
    + left. apply startswith_iff. now exists post.
    + right. simpl in H. injection H as _ ->. now exists pre, post.
  - intros [H | [pre [post ->]]].
    + apply startswith_iff in H as [t H]. now exists EmptyString, t.
    + now exists (String c pre), post.
Qed.

Lemma contains_empty (sub : string) :
  PyStr.contains EmptyString sub <-> PyStr.startswith EmptyString sub = true.
Proof.
  unfold PyStr.contains. split.
  - intros [[|c pre] [post H]]; [|discriminate].
    apply startswith_iff. now exists post.
  - intros H. apply startswith_iff in H as [t H]. now exists EmptyString, t.
Qed.

Lemma find_from_eq (i : Z) (s sub : string) :
  PyStr.find_from i s sub =
  if PyStr.startswith s sub then i
  else match s with
       | EmptyString => (-1)%Z
       | String _ s' => PyStr.find_from (i + 1) s' sub
       end.
Proof. destruct s; reflexivity. Qed.

Lemma find_from_range (i : Z) (s sub : string) :
  PyStr.find_from i s sub = (-1)%Z \/ (i <= PyStr.find_from i s sub)%Z.
Proof.
  revert i; induction s as [|c s IH]; intros i; rewrite find_from_eq.
  - destruct (PyStr.startswith EmptyString sub); [right; lia | now left].
  - destruct (PyStr.startswith (String c s) sub); [right; lia|].
    destruct (IH (i + 1)%Z); [now left | right; lia].
Qed.

(** [find] answers [-1] exactly when the substring does not occur. *)
Lemma find_from_absent (i : Z) (s sub : string) :
  (0 <= i)%Z ->
  PyStr.find_from i s sub = (-1)%Z <-> ~ PyStr.contains s sub.
Proof.
  revert i; induction s as [|c s IH]; intros i Hi; rewrite find_from_eq.
  - rewrite contains_empty.
    destruct (PyStr.startswith EmptyString sub).
    + split; [lia | intros H; now elim H].
    + split; [discriminate | reflexivity].
  - rewrite contains_cons.
    destruct (PyStr.startswith (String c s) sub) eqn:E.
    + split; [lia | intros H; elim H; now left].
    + rewrite IH by lia. split.
      * intros H [H' | H']; [discriminate | contradiction].
      * intros H H'. apply H. now right.
Qed.

Lemma find_absent (s sub : string) :
  Z.eqb (PyStr.find s sub) (-1) = true <-> ~ PyStr.contains s sub.
Proof.
  rewrite Z.eqb_eq. apply find_from_absent. lia.
Qed.

(** When [find] answers an index, the substring sits at that index and at no
    smaller one. *)
Lemma find_from_first (i : Z) (s sub : string) (n : nat) :
  (0 <= i)%Z ->
  PyStr.find_from i s sub = (i + Z.of_nat n)%Z ->
  exists pre post,
    s = pre ++ sub ++ post /\ String.length pre = n
    /\ forall pre' post', s = pre' ++ sub ++ post' ->
                          n <= String.length pre'.
Proof.
  revert i n; induction s as [|c s IH]; intros i n Hi; rewrite find_from_eq.
  - destruct (PyStr.startswith EmptyString sub) eqn:E; [|intros; lia].
    intros H. assert (n = 0) as -> by lia.
    apply startswith_iff in E as [t E].
    exists EmptyString, t. repeat split; [exact E | intros; lia].
  - destruct (PyStr.startswith (String c s) sub) eqn:E.
    + intros H. assert (n = 0) as -> by lia.
      apply startswith_iff in E as [t E].
      exists EmptyString, t. repeat split; [exact E | intros; lia].
    + intros H.
      destruct (find_from_range (i + 1) s sub) as [R | R]; [lia|].
      destruct n as [|n]; [lia|].
      destruct (IH (i + 1)%Z n) as [pre [post [-> [L Hmin]]]]; [lia | lia |].
      exists (String c pre), post. repeat split.
      * simpl. now rewrite L.
      * intros [|c' pre'] post' Heq.
        -- exfalso.
           assert (PyStr.startswith (String c (pre ++ sub ++ post)) sub = true)
             by (apply startswith_iff; now exists post').
           congruence.
        -- simpl in Heq. injection Heq as _ Heq.
           simpl. apply le_n_S. now apply (Hmin pre' post').
Qed.

(** ** Dicts and subscript chains *)

Lemma bind_ok {A B} (r : result A) (k : A -> result B) (b : B) :
  bind r k = Ok b -> exists a, r = Ok a /\ k a = Ok b.
Proof. destruct r as [a|e]; simpl; [now exists a | discriminate]. Qed.

Lemma bind_ret {A} (r : result A) : bind r Ok = r.
Proof. now destruct r. Qed.

Module DictFacts.

Lemma get_set_same k v fs : Dict.get k (Dict.set k v fs) = Some v.
Proof.
  induction fs as [|[k' v'] fs IH]; simpl.
  - now rewrite String.eqb_refl.
  - destruct (String.eqb k k') eqn:E; simpl; rewrite E; [reflexivity | exact IH].
Qed.

Lemma get_set_other k k' v fs :
  String.eqb k k' = false -> Dict.get k (Dict.set k' v fs) = Dict.get k fs.
Proof.
  intros Hk. induction fs as [|[k0 v0] fs IH]; simpl.
  - now rewrite Hk.
  - destruct (String.eqb k' k0) eqn:E; simpl.
    + apply String.eqb_eq in E. subst k0. now rewrite Hk.
    + now rewrite IH.
Qed.

Lemma get_remove_other k k' fs :
  String.eqb k k' = false -> Dict.get k (Dict.remove k' fs) = Dict.get k fs.
Proof.
  intros Hk. induction fs as [|[k0 v0] fs IH]; simpl; [reflexivity|].
  destruct (String.eqb k' k0) eqn:E; simpl.
  - apply String.eqb_eq in E. subst k0. now rewrite Hk.
  - now rewrite IH.
Qed.

Lemma get_remove_same k fs : Dict.get k (Dict.remove k fs) = None.
Proof.
  induction fs as [|[k0 v0] fs IH]; simpl; [reflexivity|].
  destruct (String.eqb k k0) eqn:E; simpl; [exact IH | now rewrite E].
Qed.

Lemma keys_set_present k v v0 fs :
  Dict.get k fs = Some v0 -> Dict.keys (Dict.set k v fs) = Dict.keys fs.
Proof.
  unfold Dict.keys. induction fs as [|[k0 v1] fs IH]; simpl; [discriminate|].
  destruct (String.eqb k k0) eqn:E; simpl; [reflexivity|].
  intros H. now rewrite IH.
Qed.

Lemma keys_set_in x k v fs :
  In x (Dict.keys (Dict.set k v fs)) -> x = k \/ In x (Dict.keys fs).
Proof.
  unfold Dict.keys. induction fs as [|[k0 v0] fs IH]; simpl.
  - intros [H | []]. now left.
  - destruct (String.eqb k k0) eqn:E; simpl.
    + intros H. now right.
    + intros [H | H]; [right; now left|].
      destruct (IH H) as [H' | H']; [now left | right; now right].
Qed.

Lemma get_in_keys k v fs : Dict.get k fs = Some v -> In k (Dict.keys fs).
Proof.
  unfold Dict.keys. induction fs as [|[k0 v0] fs IH]; simpl; [discriminate|].
  destruct (String.eqb k k0) eqn:E.
  - apply String.eqb_eq in E. now left.
  - intros H. right. now apply IH.
Qed.

End DictFacts.

Lemma getitem_ok d k v :
  getitem d k = Ok v -> exists fs, d = JObj fs /\ Dict.get k fs = Some v.
Proof.
  destruct d; simpl; try discriminate.
  destruct (Dict.get k fields) eqn:E; [|discriminate].
  intros H. injection H as ->. now exists fields.
Qed.

Lemma setitem_ok d k v d' :
  setitem d k v = Ok d' -> exists fs, d = JObj fs /\ d' = JObj (Dict.set k v fs).
Proof.
  destruct d; simpl; try discriminate.
  intros H. injection H as <-. now exists fields.
Qed.

Lemma getitem_setitem_same d k v d' :
  setitem d k v = Ok d' -> getitem d' k = Ok v.
Proof.
  intros H. apply setitem_ok in H as [fs [-> ->]]. simpl.
  now rewrite DictFacts.get_set_same.
Qed.

Lemma getitem_setitem_other d k k' v d' :
  String.eqb k k' = false -> setitem d k' v = Ok d' ->
  getitem d' k = getitem d k.
Proof.
  intros Hk H. apply setitem_ok in H as [fs [-> ->]]. simpl.
  now rewrite DictFacts.get_set_other.
Qed.

Lemma getpath_app d p q :
  getpath d (p ++ q) = bind (getpath d p) (fun c => getpath c q).
Proof.
  revert d; induction p as [|k p IH]; intros d; simpl; [reflexivity|].
  destruct (getitem d k); simpl; [apply IH | reflexivity].
Qed.

Lemma modify_at_app p q op d :
  modify_at (p ++ q) op d = modify_at p (modify_at q op) d.
Proof.
  revert d; induction p as [|k p IH]; intros d; simpl; [reflexivity|].
  destruct (getitem d k); simpl; [now rewrite IH | reflexivity].
Qed.

(** One level of a successful chained update. *)
Lemma modify_at_child k rest op d d' :
  modify_at (k :: rest) op d = Ok d' ->
  exists c c', getitem d k = Ok c /\ modify_at rest op c = Ok c'
               /\ setitem d k c' = Ok d'.
Proof.
  simpl. intros H.
  apply bind_ok in H as [c [Hc H]]. apply bind_ok in H as [c' [Hc' H]].
  now exists c, c'.
Qed.

(** The object a successful chained update acts on was reachable. *)
Lemma modify_at_resolves p op d d' :
  modify_at p op d = Ok d' -> exists o, getpath d p = Ok o.
Proof.
  revert d d'; induction p as [|k p IH]; intros d d' H.
  - now exists d.
  - apply modify_at_child in H as [c [c' [Hc [Hm _]]]].
    simpl. rewrite Hc. simpl. now apply (IH c c').
Qed.

Lemma preserves_setitem k k' v :
  String.eqb k k' = false -> preserves k (fun o => setitem o k' v).
Proof. intros Hk o o' H. now apply (getitem_setitem_other o k k' v). Qed.

Lemma preserves_modify_at k k' rest op :
  String.eqb k k' = false -> preserves k (modify_at (k' :: rest) op).
Proof.
  intros Hk o o' H. apply modify_at_child in H as [c [c' [_ [_ H]]]].
  now apply (getitem_setitem_other o k k' c').
Qed.

(** Frame rule: a chained update at [p] by an operation that leaves [k] alone
    does not change what is read below [p ++ [k]]. *)
Lemma modify_at_frame p op k rest d d' :
  preserves k op -> modify_at p op d = Ok d' ->
  getpath d' (p ++ k :: rest) = getpath d (p ++ k :: rest).
Proof.
  intros Hop. revert d d'; induction p as [|k0 p IH]; intros d d' H.
  - simpl in *. now rewrite (Hop d d' H).
  - apply modify_at_child in H as [c [c' [Hc [Hm Hs]]]].
    simpl. rewrite (getitem_setitem_same _ _ _ _ Hs), Hc. simpl.
    now apply IH.
Qed.

Lemma modify_at_diverge p k1 r1 op k2 r2 d d' :
  String.eqb k2 k1 = false ->
  modify_at (p ++ k1 :: r1) op d = Ok d' ->
  getpath d' (p ++ k2 :: r2) = getpath d (p ++ k2 :: r2).
Proof.
  intros Hk H. rewrite modify_at_app in H.
  apply (modify_at_frame p (modify_at (k1 :: r1) op)); [|exact H].
  now apply preserves_modify_at.
Qed.

Lemma modify_at_set_frame p k1 v k2 r2 d d' :
  String.eqb k2 k1 = false ->
  modify_at p (fun o => setitem o k1 v) d = Ok d' ->
  getpath d' (p ++ k2 :: r2) = getpath d (p ++ k2 :: r2).
Proof.
  intros Hk H.
  apply (modify_at_frame p (fun o => setitem o k1 v)); [|exact H].
  now apply preserves_setitem.
Qed.

(** What a chained assignment stores is read back under the same chain. *)
Lemma modify_at_set_get p k v d d' :
  modify_at p (fun o => setitem o k v) d = Ok d' ->
  getpath d' (p ++ [k]) = Ok v.
Proof.
  revert d d'; induction p as [|k0 p IH]; intros d d' H.
  - simpl in *. now rewrite (getitem_setitem_same _ _ _ _ H).
  - apply modify_at_child in H as [c [c' [Hc [Hm Hs]]]].
    simpl. rewrite (getitem_setitem_same _ _ _ _ Hs). simpl.
    now apply (IH c).
Qed.

Lemma pop_at_modify p k d v d' :
  pop_at p k d = Ok (v, d') ->
  modify_at p (pop_op k) d = Ok d' /\ getpath d (p ++ [k]) = Ok v.
Proof.
  revert d v d'; induction p as [|k0 p IH]; intros d v d' H.
  - simpl in *. unfold pop_op. rewrite H. simpl. split; [reflexivity|].
    destruct d; simpl in *; try discriminate.
    destruct (Dict.get k fields); [|discriminate]. now injection H as -> _.
  - simpl in H. apply bind_ok in H as [c [Hc H]].
    apply bind_ok in H as [[v1 c'] [Hp H]].
    apply bind_ok in H as [d1 [Hs H]]. injection H as -> ->.
    destruct (IH c v c' Hp) as [Hm Hg].
    simpl. rewrite Hc. simpl. rewrite Hm. simpl. now rewrite Hs, Hg.
Qed.

Lemma preserves_pop_op k k' :
  String.eqb k k' = false -> preserves k (pop_op k').
Proof.
  intros Hk o o'. unfold pop_op. destruct o; simpl; try discriminate.
  destruct (Dict.get k' fields); simpl; [|discriminate].
  intros H. injection H as <-. simpl.
  now rewrite DictFacts.get_remove_other.
Qed.

(** ** The customisation statements *)

Lemma customize_steps b d : customize b = Ok d <-> customized b d.
Proof.
  unfold customize. split.
  - intros H.
    apply bind_ok in H as [d1 [H1 H]]. apply bind_ok in H as [d2 [H2 H]].
    apply bind_ok in H as [d3 [H3 H]]. apply bind_ok in H as [d4 [H4 H]].
    apply bind_ok in H as [d5 [H5 H]].
    apply bind_ok in H as [[body d6] [H6 H]].
    apply bind_ok in H as [d7 [H7 H]]. apply bind_ok in H as [d8 [H8 H]].
    apply bind_ok in H as [d9 [H9 H]]. apply bind_ok in H as [d10 [H10 H]].
    injection H as <-.
    exact (customized_intro b d10 d1 d2 d3 d4 d5 body d6 d7 d8 d9
             H1 H2 H3 H4 H5 H6 H7 H8 H9 H10).
  - intros [d1 d2 d3 d4 d5 body d6 d7 d8 d9 H1 H2 H3 H4 H5 H6 H7 H8 H9 H10].
    rewrite H1; cbn [bind]. rewrite H2; cbn [bind]. rewrite H3; cbn [bind].
    rewrite H4; cbn [bind]. rewrite H5; cbn [bind]. rewrite H6; cbn [bind].
    rewrite H7; cbn [bind]. rewrite H8; cbn [bind]. rewrite H9; cbn [bind].
    now rewrite H10.
Qed.

(** Rewriting with a frame equation whose chains are written [p ++ k :: r]. *)
Ltac frame_rewrite F :=
  let E := fresh "E" in
  pose proof F as E; cbn [app] in E; rewrite E; clear E.

Ltac frame_rewrite_in F R :=
  let E := fresh "E" in
  pose proof F as E; cbn [app] in E; rewrite E in R; clear E.

(** The two root-level assignments leave every other root item alone. *)
Lemma root_assignments_frame b d1 d2 k r :
  String.eqb k "security" = false ->
  String.eqb k "x-speakeasy-retries" = false ->
  setitem b "security" security = Ok d1 ->
  setitem d1 "x-speakeasy-retries" retries = Ok d2 ->
  getpath d2 (k :: r) = getpath b (k :: r).
Proof.
  intros K1 K2 H1 H2.
  frame_rewrite (modify_at_set_frame [] _ _ k r d1 d2 K2 H2).
  exact (modify_at_set_frame [] _ _ k r b d1 K1 H1).
Qed.

(** The statements on [components] leave the [paths] subtree alone. *)
Lemma components_statements_frame d4 d5 body d6 d7 d8 d9 d r :
  modify_at [ "components" ]
    (fun o => setitem o "securitySchemes" securitySchemes) d4 = Ok d5 ->
  pop_at schemas_path "Body_partition" d5 = Ok (body, d6) ->
  modify_at schemas_path
    (fun o => setitem o "partition_parameters" body) d6 = Ok d7 ->
  modify_at partition_parameters_path
    (fun o => setitem o "title" (JStr "Partition Parameters")) d7 = Ok d8 ->
  modify_at partition_parameters_path
    (fun o => setitem o "properties" partition_properties) d8 = Ok d9 ->
  modify_at schemas_path
    (fun o => setitem o "Elements" elements_schema) d9 = Ok d ->
  getpath d ("paths" :: r) = getpath d4 ("paths" :: r).
Proof.
  intros H5 H6 H7 H8 H9 H10.
  apply pop_at_modify in H6 as [H6 _].
  frame_rewrite (modify_at_diverge [] "components" [ "schemas" ] _ "paths" r d9 d
             eq_refl H10).
  frame_rewrite (modify_at_diverge [] "components" [ "schemas"; "partition_parameters" ]
             _ "paths" r d8 d9 eq_refl H9).
  frame_rewrite (modify_at_diverge [] "components" [ "schemas"; "partition_parameters" ]
             _ "paths" r d7 d8 eq_refl H8).
  frame_rewrite (modify_at_diverge [] "components" [ "schemas" ] _ "paths" r d6 d7
             eq_refl H7).
  frame_rewrite (modify_at_diverge [] "components" [ "schemas" ] _ "paths" r d5 d6
             eq_refl H6).
  exact (modify_at_diverge [] "components" [] _ "paths" r d4 d5 eq_refl H5).
Qed.

(** A successful run read every expected key from the baseline. *)
Lemma customize_ok_expected b d :
  customize b = Ok d -> has_expected_keys b = true.
Proof.
  intros H. apply customize_steps in H.
  destruct H as [d1 d2 d3 d4 d5 body d6 d7 d8 d9 H1 H2 H3 H4 H5 H6 H7 H8 H9 H10].
  pose proof (fun k r K1 K2 =>
                root_assignments_frame b d1 d2 k r K1 K2 H1 H2) as Root.
  unfold has_expected_keys, resolves.
  (* request-body chain *)
  destruct (modify_at_resolves _ _ _ _ H3) as [o3 R3].
  unfold request_schema_path in R3.
  rewrite (Root "paths") in R3 by reflexivity.
  unfold request_schema_path. rewrite R3. cbn [andb].
  (* response chain *)
  destruct (modify_at_resolves _ _ _ _ H4) as [o4 R4].
  unfold response_content_path in R4.
  frame_rewrite_in
    (modify_at_diverge [ "paths"; partition_path; "post" ] "requestBody"
       [ "content"; "multipart/form-data"; "schema" ] _ "responses"
       [ "200"; "content"; "application/json" ] d2 d3 eq_refl H3) R4.
  rewrite (Root "paths") in R4 by reflexivity.
  unfold response_content_path. rewrite R4. cbn [andb].
  (* component *)
  apply pop_at_modify in H6 as [_ R6]. unfold schemas_path in R6.
  cbn [app] in R6.
  frame_rewrite_in
    (modify_at_set_frame [ "components" ] "securitySchemes" _ "schemas"
       [ "Body_partition" ] d4 d5 eq_refl H5) R6.
  frame_rewrite_in
    (modify_at_diverge [] "paths" _ _ "components"
       [ "schemas"; "Body_partition" ] d3 d4 eq_refl H4) R6.
  frame_rewrite_in
    (modify_at_diverge [] "paths" _ _ "components"
       [ "schemas"; "Body_partition" ] d2 d3 eq_refl H3) R6.
  rewrite (Root "components") in R6 by reflexivity.
  unfold body_partition_path. now rewrite R6.
Qed.

(** ** The synthesizer and its cache *)

Lemma synthesize_eq g w :
  synthesize g w =
  match customize (g (openapi_args w)) with
  | Ok d =>
      (Ok d,
       with_openapi_schema (Some d)
         (with_generator_runs (S (generator_runs w)) w))
  | Err e => (Err e, with_generator_runs (S (generator_runs w)) w)
  end.
Proof.
  unfold synthesize, mbind, call_get_openapi, lift, set_openapi_schema,
    modify, ret, openapi_args.
  now destruct (customize _).
Qed.

Lemma custom_openapi_cached g w doc :
  openapi_schema w = Some doc -> truthy doc = true ->
  custom_openapi g w = (Ok doc, w).
Proof. intros H T. unfold custom_openapi, ret. now rewrite H, T. Qed.

Lemma custom_openapi_unset g w :
  unset (openapi_schema w) -> custom_openapi g w = synthesize g w.
Proof.
  unfold custom_openapi, unset. destruct (openapi_schema w) as [c|]; [|reflexivity].
  now intros ->.
Qed.

Lemma unset_dec (cache : option json) :
  unset cache \/ exists doc, cache = Some doc /\ truthy doc = true.
Proof.
  destruct cache as [c|]; [|now left].
  destruct (truthy c) eqn:E; [right; now exists c | now left].
Qed.

Lemma truthy_set k v fs : truthy (JObj (Dict.set k v fs)) = true.
Proof.
  destruct fs as [|[k0 v0] fs]; cbn [truthy Dict.set]; [reflexivity|].
  now destruct (String.eqb k k0).
Qed.

(** A customised document is a non-empty dict, hence true as a cache test. *)
Lemma customize_truthy b d : customize b = Ok d -> truthy d = true.
Proof.
  intros H. apply customize_steps in H.
  destruct H as [d1 d2 d3 d4 d5 body d6 d7 d8 d9 _ _ _ _ _ _ _ _ _ H10].
  apply modify_at_child in H10 as [c [c' [_ [_ H]]]].
  apply setitem_ok in H as [fs [_ ->]]. apply truthy_set.
Qed.

(** What a successful invocation leaves behind. *)
Lemma custom_openapi_ok g w doc w1 :
  custom_openapi g w = (Ok doc, w1) ->
  openapi_schema w1 = Some doc /\ truthy doc = true
  /\ (w1 = w \/
      (unset (openapi_schema w) /\ customize (g (openapi_args w)) = Ok doc
       /\ w1 = with_openapi_schema (Some doc)
                 (with_generator_runs (S (generator_runs w)) w))).
Proof.
  intros H. destruct (unset_dec (openapi_schema w)) as [U | [c [Hc T]]].
  - rewrite (custom_openapi_unset g w U), synthesize_eq in H.
    destruct (customize (g (openapi_args w))) as [d|e] eqn:E; [|discriminate].
    injection H as -> <-. repeat split.
    + now apply (customize_truthy (g (openapi_args w))).
    + right. now repeat split.
  - rewrite (custom_openapi_cached g w c Hc T) in H. injection H as <- <-.
    repeat split; [exact Hc | exact T | now left].
Qed.

(** What a failed invocation leaves behind. *)
Lemma custom_openapi_err g w e w1 :
  custom_openapi g w = (Err e, w1) ->
  unset (openapi_schema w) /\ customize (g (openapi_args w)) = Err e
  /\ w1 = with_generator_runs (S (generator_runs w)) w.
Proof.
  intros H. destruct (unset_dec (openapi_schema w)) as [U | [c [Hc T]]].
  - rewrite (custom_openapi_unset g w U), synthesize_eq in H.
    destruct (customize (g (openapi_args w))) as [d|e'] eqn:E; [discriminate|].
    injection H as -> <-. now repeat split.
  - rewrite (custom_openapi_cached g w c Hc T) in H. discriminate.
Qed.

Lemma call_n_cached g n w doc :
  openapi_schema w = Some doc -> truthy doc = true ->
  call_n g n w = (repeat (Ok doc) n, w).
Proof.
  intros H T. induction n as [|n IH]; simpl; [reflexivity|].
  now rewrite (custom_openapi_cached g w doc H T), IH.
Qed.

(** ** Module initialisation *)

Lemma startup_world env general_routes :
  let w0 := snd (startup env general_routes) in
  fst (startup env general_routes) = Ok tt
  /\ openapi_schema w0 = None
  /\ generator_runs w0 = 0
  /\ routes w0 = (general_routes ++ [ healthcheck_route ])%list
  /\ logger_filters w0 = [ ("uvicorn.access", HealthCheckFilter);
                           ("uvicorn.access", MetricsCheckFilter) ]
  /\ (disabled_loggers w0 = [] \/ disabled_loggers w0 = [ "uvicorn.error" ])
  /\ user_middleware w0 =
     match environ_get env "ALLOWED_ORIGINS" with
     | Some v => if PyStr.truthy v then [ cors_config v ] else []
     | None => []
     end.
Proof.
  unfold startup, module_init.
  destruct (environ_get env "ENV") as [v|];
    [destruct (existsb (String.eqb v) [ "dev"; "prod" ])|];
    (destruct (environ_get env "ALLOWED_ORIGINS") as [o|];
     [destruct (PyStr.truthy o)|]);
    cbn; repeat split; auto.
Qed.

Lemma serving_startup env general_routes :
  Serving env general_routes (snd (startup env general_routes)).
Proof. now repeat split. Qed.

Lemma serving_access_log env general_routes w :
  Serving env general_routes w ->
  is_disabled w "uvicorn.access" = false
  /\ filters_of w "uvicorn.access" = [ HealthCheckFilter; MetricsCheckFilter ].
Proof.
  intros [_ [_ [Hd Hf]]].
  destruct (startup_world env general_routes) as [_ [_ [_ [_ [F [D _]]]]]].
  unfold is_disabled, filters_of. rewrite Hd, Hf, F.
  split; [|reflexivity]. now destruct D as [-> | ->].
Qed.

Lemma serving_logger env general_routes w :
  Serving env general_routes w ->
  is_disabled w logger = false /\ filters_of w logger = [].
Proof.
  intros [_ [_ [Hd Hf]]].
  destruct (startup_world env general_routes) as [_ [_ [_ [_ [F [D _]]]]]].
  unfold is_disabled, filters_of. rewrite Hd, Hf, F.
  split; [|reflexivity]. now destruct D as [-> | ->].
Qed.

Lemma serving_with_records env general_routes w rs :
  Serving env general_routes w ->
  Serving env general_routes (with_records rs w).
Proof. intros H. exact H. Qed.

Lemma find_present (s sub : string) :
  Z.eqb (PyStr.find s sub) (-1) = false <-> PyStr.contains s sub.
Proof.
  split.
  - intros H. apply Z.eqb_neq in H. unfold PyStr.find in H.
    destruct (find_from_range 0 s sub) as [R | R]; [contradiction|].
    destruct (find_from_first 0 s sub (Z.to_nat (PyStr.find_from 0 s sub)))
      as [pre [post [E _]]]; [lia | lia |].
    now exists pre, post.
  - intros H. destruct (Z.eqb (PyStr.find s sub) (-1)) eqn:E; [|reflexivity].
    apply find_absent in E. contradiction.
Qed.

(** ** Reachable worlds *)

Lemma handle_fields record w :
  let w' := snd (handle record w) in
  openapi_schema w' = openapi_schema w
  /\ user_middleware w' = user_middleware w
  /\ routes w' = routes w
  /\ disabled_loggers w' = disabled_loggers w
  /\ logger_filters w' = logger_filters w
  /\ generator_runs w' = generator_runs w.
Proof.
  unfold handle, modify. cbn [snd]. now destruct (accepts w record).
Qed.

Lemma exception_handler_fields request e w :
  let w' := snd (exception_handler request e w) in
  openapi_schema w' = openapi_schema w
  /\ user_middleware w' = user_middleware w
  /\ routes w' = routes w
  /\ disabled_loggers w' = disabled_loggers w
  /\ logger_filters w' = logger_filters w
  /\ generator_runs w' = generator_runs w.
Proof.
  destruct e as [s m | m]; [|now repeat split].
  unfold exception_handler, http_error_handler, logger_error, mbind, ret.
  pose proof (handle_fields
                {| name := logger; levelno := ERROR; getMessage := m |} w) as H.
  destruct (handle _ w) as [[[]|e] w']; exact H.
Qed.

Lemma custom_openapi_fields g w :
  let w' := snd (custom_openapi g w) in
  user_middleware w' = user_middleware w
  /\ routes w' = routes w
  /\ disabled_loggers w' = disabled_loggers w
  /\ logger_filters w' = logger_filters w
  /\ records w' = records w.
Proof.
  destruct (unset_dec (openapi_schema w)) as [U | [c [Hc T]]].
  - rewrite (custom_openapi_unset g w U), synthesize_eq.
    now destruct (customize _).
  - now rewrite (custom_openapi_cached g w c Hc T).
Qed.

(** Every reachable world keeps the configuration of module initialisation,
    and its cache is empty or holds the customised baseline. *)
Lemma reachable_invariant g env general_routes w :
  reachable g env general_routes w ->
  Serving env general_routes w /\ cache_ok g w.
Proof.
  induction 1 as [| w R [HS HC] | w request e R [HS HC]
                  | w request R [HS HC] | w record R [HS HC]].
  - split; [apply serving_startup|]. left.
    now destruct (startup_world env general_routes) as [_ [C _]].
  - destruct (custom_openapi_fields g w) as [F1 [F2 [F3 [F4 _]]]].
    split.
    + destruct HS as [S1 [S2 [S3 S4]]]. unfold Serving.
      rewrite F1, F2, F3, F4. now repeat split.
    + destruct (custom_openapi g w) as [[d|e] w1] eqn:H; cbn [snd] in *.
      * apply custom_openapi_ok in H as [C [_ [-> | [_ [E ->]]]]];
          [exact HC|].
        right. exists d. split; [reflexivity | exact E].
      * apply custom_openapi_err in H as [_ [_ ->]]. exact HC.
  - destruct (exception_handler_fields request e w)
      as [F0 [F1 [F2 [F3 [F4 _]]]]].
    split.
    + destruct HS as [S1 [S2 [S3 S4]]]. unfold Serving.
      rewrite F1, F2, F3, F4. now repeat split.
    + unfold cache_ok, openapi_args in *. now rewrite F0, F2.
  - exact (conj HS HC).
  - destruct (handle_fields record w) as [F0 [F1 [F2 [F3 [F4 _]]]]].
    split.
    + destruct HS as [S1 [S2 [S3 S4]]]. unfold Serving.
      rewrite F1, F2, F3, F4. now repeat split.
    + unfold cache_ok, openapi_args in *. now rewrite F0, F2.
Qed.

(** Whatever document the synthesizer returns in a reachable world is the
    customised baseline. *)
Lemma reachable_document g env general_routes w w1 d :
  reachable g env general_routes w ->
  custom_openapi g w = (Ok d, w1) ->
  customize (g (openapi_args w)) = Ok d.
Proof.
  intros R H. destruct (reachable_invariant _ _ _ _ R) as [_ HC].
  destruct HC as [N | [doc [C E]]].
  - rewrite custom_openapi_unset, synthesize_eq in H by (now rewrite N).
    destruct (customize (g (openapi_args w))); [|discriminate].
    now injection H as -> _.
  - rewrite (custom_openapi_cached g w doc C
               (customize_truthy _ _ E)) in H.
    now injection H as <- _.
Qed.

(** * The claims *)

(** C1.  A structured failure (an [HTTPException] with status code [s] and
    message [m]) is answered with status [s] and body [{"detail": m}], and
    one error-level record whose message is [m] is emitted on the module's
    logger; nothing else in the process changes. *)
Theorem structured_failure_response
  (env : environ) (general_routes : list APIRoute) (w : World)
  (request : Request) (s : Z) (m : string) :
  Serving env general_routes w ->
  exception_handler request (HTTPException s m) w =
  (Ok {| status_code := s;
         content := JObj [ ("detail", JStr m) ];
         headers := [] |},
   with_records
     (records w ++ [ {| name := logger; levelno := ERROR; getMessage := m |} ])
     w).
Proof.
  intros HS. destruct (serving_logger env general_routes w HS) as [D F].
  unfold exception_handler, http_error_handler, logger_error, handle, mbind,
    modify, ret, accepts, JSONResponse.
  cbn [name]. now rewrite D, F.
Qed.

Lemma structured_failure_response_witness :
  Serving [] Sample.general_routes Sample.world
  /\ fst (exception_handler Sample.request (HTTPException 404 "Not Found")
            Sample.world)
     = Ok {| status_code := 404;
             content := JObj [ ("detail", JStr "Not Found") ];
             headers := [] |}.
Proof.
  split; [apply serving_startup|].
  rewrite (structured_failure_response [] Sample.general_routes Sample.world
             Sample.request 404 "Not Found" (serving_startup _ _)).
  reflexivity.
Defined.

(** C2.  A failure that is not an [HTTPException], with string
    representation [m], is answered with status 500 and body
    [{"detail": m}]; the handler emits no record and leaves the process
    state as it is. *)
Theorem unstructured_failure_response
  (w : World) (request : Request) (m : string) :
  str (Exception m) = m
  /\ exception_handler request (Exception m) w =
     (Ok {| status_code := 500;
            content := JObj [ ("detail", JStr m) ];
            headers := [] |},
      w).
Proof. split; reflexivity. Qed.

(** C6.  The health endpoint answers every request with status 200 and the
    fixed payload, whatever the request holds and whatever the state of the
    process; it cannot raise and changes nothing. *)
Theorem healthcheck_fixed_response (w : World) (request : Request) :
  healthcheck request =
    JObj [ ("healthcheck", JStr "HEALTHCHECK STATUS: EVERYTHING OK!") ]
  /\ serve_healthcheck request w =
     (Ok {| status_code := 200;
            content :=
              JObj [ ("healthcheck",
                      JStr "HEALTHCHECK STATUS: EVERYTHING OK!") ];
            headers := [] |},
      w)
  /\ path healthcheck_route = "/healthcheck"
  /\ methods healthcheck_route = [ "GET" ]
  /\ forall env general_routes,
       In healthcheck_route (routes (snd (startup env general_routes))).
Proof.
  repeat split. intros env general_routes.
  destruct (startup_world env general_routes) as [_ [_ [_ [R _]]]].
  rewrite R. apply in_or_app. right. now left.
Qed.

(** C8.  Each filter rejects a record exactly when the rendered message
    contains its marker.  In the running application a record logged on the
    access logger is therefore dropped exactly when its message contains
    ["/healthcheck"] or ["/metrics"]; a record that is not dropped is emitted
    as it is; and the records of the error normalizer's logger never meet
    these filters: they are all emitted. *)
Theorem access_log_filters
  (env : environ) (general_routes : list APIRoute) (w : World)
  (record : LogRecord) :
  Serving env general_routes w ->
  (filter HealthCheckFilter record = false <->
   PyStr.contains (getMessage record) "/healthcheck")
  /\ (filter MetricsCheckFilter record = false <->
      PyStr.contains (getMessage record) "/metrics")
  /\ (name record = "uvicorn.access" ->
      (accepts w record = false <->
       PyStr.contains (getMessage record) "/healthcheck"
       \/ PyStr.contains (getMessage record) "/metrics"))
  /\ snd (handle record w) =
     (if accepts w record then with_records (records w ++ [ record ]) w
      else w)
  /\ (name record = logger -> accepts w record = true).
Proof.
  intros HS.
  destruct (serving_access_log env general_routes w HS) as [D F].
  destruct (serving_logger env general_routes w HS) as [D' F'].
  split; [apply find_present|]. split; [apply find_present|].
  split; [|split].
  - intros N. unfold accepts. rewrite N, D, F.
    cbn [negb andb forallb filter].
    rewrite andb_true_r, andb_false_iff.
    now rewrite !find_present.
  - reflexivity.
  - intros N. unfold accepts. now rewrite N, D', F'.
Qed.

Lemma access_log_filters_witness :
  Serving [] Sample.general_routes Sample.world
  /\ accepts Sample.world
       {| name := "uvicorn.access"; levelno := INFO;
          getMessage := "127.0.0.1:5000 - GET /healthcheck HTTP/1.1 200" |}
     = false
  /\ accepts Sample.world
       {| name := logger; levelno := ERROR;
          getMessage := "GET /healthcheck failed" |}
     = true.
Proof.
  split; [apply serving_startup|].
  pose proof (access_log_filters [] Sample.general_routes Sample.world
                {| name := "uvicorn.access"; levelno := INFO;
                   getMessage :=
                     "127.0.0.1:5000 - GET /healthcheck HTTP/1.1 200" |}
                (serving_startup _ _)) as [_ [_ [H _]]].
  pose proof (access_log_filters [] Sample.general_routes Sample.world
                {| name := logger; levelno := ERROR;
                   getMessage := "GET /healthcheck failed" |}
                (serving_startup _ _)) as [_ [_ [_ [_ H']]]].
  split; [|exact (H' eq_refl)].
  apply (H eq_refl). left.
  now exists "127.0.0.1:5000 - GET ", " HTTP/1.1 200".
Defined.

(** C9.  Without the [ALLOWED_ORIGINS] variable no middleware is installed
    and a response leaves the application exactly as the route or the error
    normalizer produced it; with the value
    ["https://a.com,https://b.com"] one CORS middleware is installed whose
    origins are those two entries, whose methods are [OPTIONS] and [POST]
    and whose request header is [Content-Type]. *)
Theorem cors_policy
  (env : environ) (general_routes : list APIRoute) (w : World) :
  Serving env general_routes w ->
  (environ_get env "ALLOWED_ORIGINS" = None ->
   user_middleware w = []
   /\ forall cors_send request response,
        send cors_send w request response = response)
  /\ (environ_get env "ALLOWED_ORIGINS" = Some "https://a.com,https://b.com" ->
      user_middleware w =
        [ {| allow_origins := [ "https://a.com"; "https://b.com" ];
             allow_methods := [ "OPTIONS"; "POST" ];
             allow_headers := [ "Content-Type" ] |} ]
      /\ forall origin,
           (exists m, In m (user_middleware w)
                      /\ is_allowed_origin m origin = true)
           <-> origin = "https://a.com" \/ origin = "https://b.com").
Proof.
  intros [Hm _].
  destruct (startup_world env general_routes) as [_ [_ [_ [_ [_ [_ M]]]]]].
  rewrite <- Hm in M. split; intros E; rewrite E in M.
  - split; [exact M|]. intros cors_send request response.
    unfold send. now rewrite M.
  - assert (cors_config "https://a.com,https://b.com" =
            {| allow_origins := [ "https://a.com"; "https://b.com" ];
               allow_methods := [ "OPTIONS"; "POST" ];
               allow_headers := [ "Content-Type" ] |}) as C by reflexivity.
    rewrite C in M. clear C.
    split; [exact M|]. intros origin. rewrite M. split.
    + intros [m [[<- | []] A]]. unfold is_allowed_origin in A.
      cbn [allow_origins existsb] in A.
      rewrite !orb_false_r in A.
      change (String.eqb "*" "https://a.com") with false in A.
      change (String.eqb "*" "https://b.com") with false in A.
      cbn [orb] in A. apply orb_true_iff in A.
      destruct A as [A | A]; apply String.eqb_eq in A; auto.
    + intros H. eexists. split; [now left|].
      unfold is_allowed_origin. cbn [allow_origins existsb].
      destruct H as [-> | ->]; rewrite String.eqb_refl;
        now rewrite ?orb_true_r.
Qed.

Lemma cors_policy_witness :
  (Serving [] Sample.general_routes Sample.world
   /\ user_middleware Sample.world = [])
  /\ (let w := snd (startup
                      [ ("ALLOWED_ORIGINS", "https://a.com,https://b.com") ]
                      Sample.general_routes) in
      map allow_origins (user_middleware w)
      = [ [ "https://a.com"; "https://b.com" ] ]).
Proof.
  split.
  - split; [apply serving_startup|].
    exact (proj1 (proj1 (cors_policy [] Sample.general_routes Sample.world
                           (serving_startup _ _)) eq_refl)).
  - cbv zeta.
    rewrite (proj1 (proj2 (cors_policy
                             [ ("ALLOWED_ORIGINS", "https://a.com,https://b.com") ]
                             Sample.general_routes _ (serving_startup _ _))
                      eq_refl)).
    reflexivity.
Defined.

(** C3.  Once an invocation of the synthesizer has returned a document,
    every later invocation returns that same document and leaves the process
    state, the generator count included, as it is, whatever the generator
    would produce now; the invocation that returned the document ran the
    generator at most once. *)
Theorem synthesis_is_cached
  (get_openapi : OpenAPIArgs -> json) (w w1 : World) (doc : json) :
  custom_openapi get_openapi w = (Ok doc, w1) ->
  (forall get_openapi', custom_openapi get_openapi' w1 = (Ok doc, w1))
  /\ (forall get_openapi' n,
        call_n get_openapi' n w1 = (repeat (Ok doc) n, w1))
  /\ generator_runs w1 <= S (generator_runs w).
Proof.
  intros H. apply custom_openapi_ok in H as [C [T R]].
  repeat split.
  - intros g'. now apply custom_openapi_cached.
  - intros g' n. now apply call_n_cached.
  - destruct R as [-> | [_ [_ ->]]]; simpl; lia.
Qed.

Lemma synthesis_is_cached_witness :
  Sample.first_call = (Ok Sample.document, snd Sample.first_call)
  /\ custom_openapi Generator.get_openapi (snd Sample.first_call)
     = (Ok Sample.document, snd Sample.first_call)
  /\ generator_runs (snd Sample.first_call) = 1.
Proof.
  assert (Sample.first_call = (Ok Sample.document, snd Sample.first_call))
    as H by (vm_compute; reflexivity).
  split; [exact H|]. split; [|vm_compute; reflexivity].
  exact (proj1 (synthesis_is_cached Generator.get_openapi Sample.world
                  (snd Sample.first_call) Sample.document H)
           Generator.get_openapi).
Defined.

(** C10.  When an invocation of the synthesizer raises, the cache is as
    unset afterwards as it was before (only the generator count moved): in
    the running process it still holds [None], so no partly customised
    document is stored; the next invocation runs the generator again and its
    outcome is the customisation of the fresh baseline, as if the failed
    attempt had not happened. *)
Theorem failed_synthesis_is_not_cached
  (get_openapi : OpenAPIArgs -> json) (w w1 : World) (e : error) :
  custom_openapi get_openapi w = (Err e, w1) ->
  openapi_schema w1 = openapi_schema w
  /\ unset (openapi_schema w1)
  /\ (forall env general_routes,
        reachable get_openapi env general_routes w ->
        openapi_schema w1 = None)
  /\ w1 = with_generator_runs (S (generator_runs w)) w
  /\ forall get_openapi',
       fst (custom_openapi get_openapi' w1)
       = customize (get_openapi' (openapi_args w))
       /\ generator_runs (snd (custom_openapi get_openapi' w1))
          = S (generator_runs w1).
Proof.
  intros H. apply custom_openapi_err in H as [U [E ->]].
  split; [reflexivity|]. split; [exact U|]. split; [|split; [reflexivity|]].
  - intros env general_routes R.
    destruct (reachable_invariant _ _ _ _ R) as [_ [N | [doc [C E']]]];
      [exact N | congruence].
  - intros get_openapi'.
    rewrite custom_openapi_unset by exact U. rewrite synthesize_eq.
    change (openapi_args (with_generator_runs (S (generator_runs w)) w))
      with (openapi_args w).
    now destruct (customize (get_openapi' (openapi_args w))).
Qed.

Lemma failed_synthesis_is_not_cached_witness :
  custom_openapi Generator.get_openapi Sample.broken_world
  = (Err (KeyError "/general/v0/general"),
     with_generator_runs 1 Sample.broken_world)
  /\ openapi_schema (with_generator_runs 1 Sample.broken_world) = None.
Proof.
  assert (custom_openapi Generator.get_openapi Sample.broken_world
          = (Err (KeyError "/general/v0/general"),
             with_generator_runs 1 Sample.broken_world))
    as H by (vm_compute; reflexivity).
  split; [exact H|].
  exact (proj1 (proj2 (proj2 (failed_synthesis_is_not_cached
                               Generator.get_openapi Sample.broken_world _ _ H)))
           [] Sample.renamed_routes (reach_startup _ _ _)).
Defined.

(** An unreachable subscript chain of the first chained statement is
    reported as it is: the exception is the one the chain raises on the
    baseline. *)
Lemma modify_at_err p op d e :
  getpath d p = Err e -> modify_at p op d = Err e.
Proof.
  revert d; induction p as [|k p IH]; intros d; simpl; [discriminate|].
  destruct (getitem d k) as [c|e'] eqn:E; simpl; [|now intros H].
  intros H. now rewrite (IH c H).
Qed.

Lemma customize_reports_request_chain b e :
  getpath b request_schema_path = Err e -> customize b = Err e.
Proof.
  intros H. unfold customize.
  destruct (setitem b "security" security) as [d1|e1] eqn:H1.
  - destruct (setitem_ok _ _ _ _ H1) as [fs [-> ->]]. cbn [bind setitem].
    set (d2 := JObj (Dict.set "x-speakeasy-retries" retries
                       (Dict.set "security" _ fs))).
    assert (getpath d2 request_schema_path = Err e) as R.
    { rewrite <- H. unfold request_schema_path.
      eapply (root_assignments_frame (JObj fs)); reflexivity. }
    now rewrite (modify_at_err _ _ _ _ R).
  - cbn [bind]. destruct b; try discriminate; simpl in H, H1; congruence.
Qed.

Lemma modify_at_ok p op d o o' :
  getpath d p = Ok o -> op o = Ok o' -> exists d', modify_at p op d = Ok d'.
Proof.
  revert d; induction p as [|k p IH]; intros d G Hop.
  - simpl in *. injection G as ->. now exists o'.
  - simpl in G. apply bind_ok in G as [c [Hc G]].
    destruct (IH c G Hop) as [c' Hm].
    destruct (getitem_ok _ _ _ Hc) as [fs [-> _]].
    exists (JObj (Dict.set k c' fs)). simpl in *. rewrite Hc. simpl.
    now rewrite Hm.
Qed.

(** Popping a key that the chain does not reach raises the chain's
    [KeyError]. *)
Lemma pop_at_missing p k0 d k :
  getpath d (p ++ [ k0 ]) = Err (KeyError k) ->
  pop_at p k0 d = Err (KeyError k).
Proof.
  revert d; induction p as [|k1 p IH]; intros d; simpl.
  - destruct d; simpl; try discriminate.
    destruct (Dict.get k0 fields); simpl; [discriminate|].
    intros H. now injection H as ->.
  - destruct (getitem d k1) as [c|e]; simpl;
      [|intros H; now injection H as ->].
    intros H. now rewrite (IH c H).
Qed.

Lemma customize_reports_response_chain b fs e :
  getpath b request_schema_path = Ok (JObj fs) ->
  getpath b response_content_path = Err e ->
  customize b = Err e.
Proof.
  intros Q P. unfold customize.
  destruct b as [| | | | | |fs0]; try discriminate.
  cbn [setitem bind].
  set (d1 := JObj (Dict.set "security" security fs0)).
  set (d2 := JObj (Dict.set "x-speakeasy-retries" retries _)).
  pose proof (fun k r K1 K2 =>
                root_assignments_frame (JObj fs0) d1 d2 k r K1 K2
                  eq_refl eq_refl) as Root.
  unfold request_schema_path in Q. rewrite <- (Root "paths") in Q by reflexivity.
  destruct (modify_at_ok request_schema_path
              (fun o => setitem o "$ref" (JStr partition_parameters_ref))
              d2 (JObj fs) _ Q eq_refl) as [d3 H3].
  rewrite H3. cbn [bind].
  unfold response_content_path in P. rewrite <- (Root "paths") in P by reflexivity.
  frame_rewrite_in
    (eq_sym (modify_at_diverge [ "paths"; partition_path; "post" ]
               "requestBody" [ "content"; "multipart/form-data"; "schema" ] _
               "responses" [ "200"; "content"; "application/json" ] d2 d3
               eq_refl H3)) P.
  now rewrite (modify_at_err response_content_path _ d3 e P).
Qed.

(** The claim's second example: a baseline whose [components.schemas] lacks
    [Body_partition] (or which lacks [components] or [schemas]) makes the
    customisation raise the [KeyError] of the missing key. *)
Lemma customize_reports_missing_component b fs1 fs2 k :
  getpath b request_schema_path = Ok (JObj fs1) ->
  getpath b response_content_path = Ok (JObj fs2) ->
  getpath b body_partition_path = Err (KeyError k) ->
  customize b = Err (KeyError k).
Proof.
  intros Q P B. unfold customize.
  destruct b as [| | | | | |fs0]; try discriminate.
  cbn [setitem bind].
  set (d1 := JObj (Dict.set "security" security fs0)).
  set (d2 := JObj (Dict.set "x-speakeasy-retries" retries _)).
  pose proof (fun k r K1 K2 =>
                root_assignments_frame (JObj fs0) d1 d2 k r K1 K2
                  eq_refl eq_refl) as Root.
  unfold request_schema_path in Q. rewrite <- (Root "paths") in Q by reflexivity.
  destruct (modify_at_ok request_schema_path
              (fun o => setitem o "$ref" (JStr partition_parameters_ref))
              d2 (JObj fs1) _ Q eq_refl) as [d3 H3].
  rewrite H3. cbn [bind].
  unfold response_content_path in P. rewrite <- (Root "paths") in P by reflexivity.
  frame_rewrite_in
    (eq_sym (modify_at_diverge [ "paths"; partition_path; "post" ]
               "requestBody" [ "content"; "multipart/form-data"; "schema" ] _
               "responses" [ "200"; "content"; "application/json" ] d2 d3
               eq_refl H3)) P.
  destruct (modify_at_ok response_content_path
              (fun o => setitem o "schema" (JObj [ ("$ref", JStr elements_ref) ]))
              d3 (JObj fs2) _ P eq_refl) as [d4 H4].
  rewrite H4. cbn [bind].
  unfold body_partition_path in B.
  rewrite <- (Root "components") in B by reflexivity.
  frame_rewrite_in
    (eq_sym (modify_at_diverge [] "paths" _ _ "components"
               [ "schemas"; "Body_partition" ] d2 d3 eq_refl H3)) B.
  frame_rewrite_in
    (eq_sym (modify_at_diverge [] "paths" _ _ "components"
               [ "schemas"; "Body_partition" ] d3 d4 eq_refl H4)) B.
  destruct (modify_at [ "components" ]
              (fun o => setitem o "securitySchemes" securitySchemes) d4)
    as [d5|e5] eqn:H5; cbn [bind].
  - frame_rewrite_in
      (eq_sym (modify_at_set_frame [ "components" ] "securitySchemes" _
                 "schemas" [ "Body_partition" ] d4 d5 eq_refl H5)) B.
    now rewrite (pop_at_missing schemas_path "Body_partition" d5 k B).
  - simpl in H5, B.
    destruct (getitem d4 "components") as [c|e] eqn:Hc; simpl in H5, B.
    + destruct c; simpl in H5, B; try discriminate.
      destruct (getitem_ok _ _ _ Hc) as [f4 [E4 _]]. rewrite E4 in H5.
      discriminate.
    + congruence.
Qed.

(** C4 (amended).  A baseline that lacks one of the keys the customisation
    reads makes the synthesizer raise when it is invoked: no document is
    returned and the cache stays unset.  Module initialisation itself
    completes without running the synthesizer. *)
Theorem missing_key_fails_when_invoked
  (get_openapi : OpenAPIArgs -> json) (env : environ)
  (general_routes : list APIRoute) (w : World) :
  unset (openapi_schema w) ->
  has_expected_keys (get_openapi (openapi_args w)) = false ->
  (exists e,
     custom_openapi get_openapi w
     = (Err e, with_generator_runs (S (generator_runs w)) w))
  /\ fst (startup env general_routes) = Ok tt
  /\ generator_runs (snd (startup env general_routes)) = 0
  /\ openapi_schema (snd (startup env general_routes)) = None.
Proof.
  intros U K.
  destruct (startup_world env general_routes) as [S0 [C0 [G0 _]]].
  repeat split; try assumption.
  rewrite custom_openapi_unset by exact U. rewrite synthesize_eq.
  destruct (customize (get_openapi (openapi_args w))) as [d|e] eqn:E.
  - apply customize_ok_expected in E. congruence.
  - now exists e.
Qed.

Lemma missing_key_fails_when_invoked_witness :
  unset (openapi_schema Sample.broken_world)
  /\ has_expected_keys
       (Generator.get_openapi (openapi_args Sample.broken_world)) = false
  /\ exists e,
       custom_openapi Generator.get_openapi Sample.broken_world
       = (Err e, with_generator_runs 1 Sample.broken_world).
Proof.
  assert (unset (openapi_schema Sample.broken_world)) as U by exact I.
  assert (has_expected_keys
            (Generator.get_openapi (openapi_args Sample.broken_world)) = false)
    as K by (vm_compute; reflexivity).
  split; [exact U|]. split; [exact K|].
  exact (proj1 (missing_key_fails_when_invoked Generator.get_openapi []
                  Sample.renamed_routes Sample.broken_world U K)).
Defined.

(** C4 as stated does not hold: with a router whose partition route was
    renamed the baseline lacks the partition path, yet module
    initialisation completes, the generator has not run, and the missing key
    only shows when the description is first asked for. *)
Lemma missing_key_not_detected_at_startup :
  has_expected_keys
    (Generator.get_openapi (openapi_args Sample.broken_world)) = false
  /\ startup [] Sample.renamed_routes = (Ok tt, Sample.broken_world)
  /\ generator_runs Sample.broken_world = 0
  /\ fst (custom_openapi Generator.get_openapi Sample.broken_world)
     = Err (KeyError "/general/v0/general").
Proof. repeat split; vm_compute; reflexivity. Qed.

(** What the customisation statements leave in the document. *)
Lemma customize_references b d :
  customize b = Ok d ->
  getpath d (request_schema_path ++ [ "$ref" ])
  = Ok (JStr partition_parameters_ref)
  /\ getpath d (response_content_path ++ [ "schema" ])
     = Ok (JObj [ ("$ref", JStr elements_ref) ])
  /\ getpath d (partition_parameters_path ++ [ "properties" ])
     = Ok partition_properties
  /\ getpath d (schemas_path ++ [ "Elements" ]) = Ok elements_schema.
Proof.
  intros H. apply customize_steps in H.
  destruct H as [d1 d2 d3 d4 d5 body d6 d7 d8 d9 H1 H2 H3 H4 H5 H6 H7 H8 H9 H10].
  pose proof (fun r =>
                components_statements_frame d4 d5 body d6 d7 d8 d9 d r
                  H5 H6 H7 H8 H9 H10) as Tail.
  repeat split.
  - unfold request_schema_path. cbn [app]. rewrite Tail.
    frame_rewrite
      (modify_at_diverge [ "paths"; partition_path; "post" ] "responses"
         [ "200"; "content"; "application/json" ] _ "requestBody"
         [ "content"; "multipart/form-data"; "schema"; "$ref" ] d3 d4
         eq_refl H4).
    exact (modify_at_set_get _ _ _ _ _ H3).
  - unfold response_content_path. cbn [app]. rewrite Tail.
    exact (modify_at_set_get _ _ _ _ _ H4).
  - unfold partition_parameters_path. cbn [app].
    frame_rewrite
      (modify_at_set_frame [ "components"; "schemas" ] "Elements" _
         "partition_parameters" [ "properties" ] d9 d eq_refl H10).
    exact (modify_at_set_get _ _ _ _ _ H9).
  - exact (modify_at_set_get _ _ _ _ _ H10).
Qed.

(** C5.  In every description the synthesizer returns, at any time in the
    life of the process, the [$ref] of the partition operation's multipart
    request-body schema is ["#/components/schemas/partition_parameters"],
    which resolves to a component whose properties are the hand-written ones
    (seventeen fields, [files], [strategy] and [output_format] among them);
    the schema of the 200 response is a [$ref] to
    ["#/components/schemas/Elements"], which resolves to the Elements
    component. *)
Theorem description_references
  (get_openapi : OpenAPIArgs -> json) (env : environ)
  (general_routes : list APIRoute) (w w1 : World) (d : json) :
  reachable get_openapi env general_routes w ->
  custom_openapi get_openapi w = (Ok d, w1) ->
  getpath d (request_schema_path ++ [ "$ref" ])
  = Ok (JStr "#/components/schemas/partition_parameters")
  /\ (exists component,
        resolve d "#/components/schemas/partition_parameters" = Ok component
        /\ getitem component "properties" = Ok partition_properties)
  /\ field_names partition_properties =
     [ "files"; "strategy"; "gz_uncompressed_content_type"; "output_format";
       "coordinates"; "encoding"; "hi_res_model_name"; "include_page_breaks";
       "languages"; "pdf_infer_table_structure"; "skip_infer_table_types";
       "xml_keep_tags"; "chunking_strategy"; "multipage_sections";
       "combine_under_n_chars"; "new_after_n_chars"; "max_characters" ]
  /\ getpath d (response_content_path ++ [ "schema" ])
     = Ok (JObj [ ("$ref", JStr "#/components/schemas/Elements") ])
  /\ resolve d "#/components/schemas/Elements" = Ok elements_schema.
Proof.
  intros R H. pose proof (reachable_document _ _ _ _ _ _ R H) as E.
  destruct (customize_references _ _ E) as [A [B [C D]]].
  split; [exact A|]. split; [|split; [reflexivity|split; [exact B|exact D]]].
  rewrite getpath_app in C. apply bind_ok in C as [component [C1 C2]].
  exists component. split; [exact C1|].
  simpl in C2. now rewrite bind_ret in C2.
Qed.

Lemma description_references_witness :
  reachable Generator.get_openapi [] Sample.general_routes Sample.world
  /\ getpath Sample.document (request_schema_path ++ [ "$ref" ])
     = Ok (JStr "#/components/schemas/partition_parameters")
  /\ resolve Sample.document "#/components/schemas/Elements"
     = Ok elements_schema.
Proof.
  assert (reachable Generator.get_openapi [] Sample.general_routes
            Sample.world) as R by apply reach_startup.
  assert (custom_openapi Generator.get_openapi Sample.world
          = (Ok Sample.document, snd Sample.first_call))
    as H by (vm_compute; reflexivity).
  pose proof (description_references Generator.get_openapi []
                Sample.general_routes Sample.world (snd Sample.first_call)
                Sample.document R H)
    as [A [_ [_ [_ D]]]].
  split; [exact R|]. split; [exact A | exact D].
Defined.

(** ** The path list *)

(** A chained update below an item of a dict keeps the dict's keys. *)
Lemma modify_at_keys k rest op fs c' :
  modify_at (k :: rest) op (JObj fs) = Ok c' ->
  exists fs', c' = JObj fs' /\ Dict.keys fs' = Dict.keys fs.
Proof.
  intros H. apply modify_at_child in H as [c [c1 [Hc [_ Hs]]]].
  apply getitem_ok in Hc as [fs0 [E G]]. injection E as <-.
  apply setitem_ok in Hs as [fs1 [E ->]]. injection E as <-.
  eexists. split; [reflexivity|]. now apply (DictFacts.keys_set_present k c1 c).
Qed.

Lemma modify_below_paths_keys p rest op d d' ps :
  modify_at ("paths" :: p :: rest) op d = Ok d' ->
  getitem d "paths" = Ok (JObj ps) ->
  exists ps', getitem d' "paths" = Ok (JObj ps')
              /\ Dict.keys ps' = Dict.keys ps.
Proof.
  intros H G. apply modify_at_child in H as [c [c' [Hc [Hm Hs]]]].
  rewrite G in Hc. injection Hc as <-.
  apply modify_at_keys in Hm as [ps' [-> K]].
  exists ps'. split; [|exact K]. now apply (getitem_setitem_same d "paths").
Qed.

(** The customisation adds no path and removes none. *)
Lemma customize_path_keys b d ps :
  customize b = Ok d -> getitem b "paths" = Ok (JObj ps) ->
  exists ps', getitem d "paths" = Ok (JObj ps')
              /\ Dict.keys ps' = Dict.keys ps.
Proof.
  intros H G. apply customize_steps in H.
  destruct H as [d1 d2 d3 d4 d5 body d6 d7 d8 d9 H1 H2 H3 H4 H5 H6 H7 H8 H9 H10].
  pose proof (components_statements_frame d4 d5 body d6 d7 d8 d9 d []
                H5 H6 H7 H8 H9 H10) as Tail.
  simpl in Tail. rewrite !bind_ret in Tail.
  pose proof (root_assignments_frame b d1 d2 "paths" [] eq_refl eq_refl H1 H2)
    as Head.
  simpl in Head. rewrite !bind_ret in Head.
  rewrite <- Head in G.
  destruct (modify_below_paths_keys _ _ _ _ _ _ H3 G) as [ps3 [G3 K3]].
  destruct (modify_below_paths_keys _ _ _ _ _ _ H4 G3) as [ps4 [G4 K4]].
  exists ps4. rewrite Tail. split; [exact G4 | congruence].
Qed.

Module GeneratorFacts.

Lemma add_operation_keys x p m op ps :
  In x (Dict.keys (Generator.add_operation p m op ps)) ->
  x = p \/ In x (Dict.keys ps).
Proof. unfold Generator.add_operation. apply DictFacts.keys_set_in. Qed.

Lemma add_methods_keys x p op ms ps :
  In x (Dict.keys
          (fold_left
             (fun acc m => Generator.add_operation p (Generator.lower m) op acc)
             ms ps)) ->
  x = p \/ In x (Dict.keys ps).
Proof.
  revert ps; induction ms as [|m ms IH]; intros ps; simpl; [now right|].
  intros H. destruct (IH _ H) as [E | H']; [now left|].
  now apply add_operation_keys in H'.
Qed.

Lemma add_route_keys x r ps :
  In x (Dict.keys (Generator.add_route r ps)) ->
  (include_in_schema r = true /\ path r = x) \/ In x (Dict.keys ps).
Proof.
  unfold Generator.add_route. destruct (include_in_schema r); [|now right].
  intros H. apply add_methods_keys in H as [-> | H]; [now left | now right].
Qed.

(** Every path of the generated description belongs to a route whose
    inclusion flag is set. *)
Lemma paths_keys x rs ps :
  In x (Dict.keys (fold_left (fun acc r => Generator.add_route r acc) rs ps)) ->
  In x (Dict.keys ps)
  \/ exists r, In r rs /\ include_in_schema r = true /\ path r = x.
Proof.
  revert ps; induction rs as [|r rs IH]; intros ps; simpl; [now left|].
  intros H. destruct (IH _ H) as [H' | [r' [I [F P]]]].
  - apply add_route_keys in H' as [[F P] | H']; [|now left].
    right. exists r. repeat split; auto.
  - right. exists r'. repeat split; auto.
Qed.

Lemma get_openapi_paths a :
  getitem (Generator.get_openapi a) "paths"
  = Ok (JObj (fold_left (fun acc r => Generator.add_route r acc)
                (arg_routes a) [])).
Proof.
  unfold Generator.get_openapi, Generator.optional.
  destruct (truthy (servers a)); reflexivity.
Qed.

End GeneratorFacts.

(** C7.  As long as the router taken from [.general] publishes no route at
    ["/healthcheck"], that path is not among the paths of any description the
    synthesizer returns from the generator's baseline: the probe's route
    carries [include_in_schema=False], and the customisation adds no path. *)
Theorem healthcheck_not_in_description
  (env : environ) (general_routes : list APIRoute) (w w1 : World) (d : json) :
  reachable Generator.get_openapi env general_routes w ->
  (forall r, In r general_routes -> include_in_schema r = true ->
             path r <> "/healthcheck") ->
  custom_openapi Generator.get_openapi w = (Ok d, w1) ->
  exists paths,
    getitem d "paths" = Ok (JObj paths)
    /\ ~ In "/healthcheck" (Dict.keys paths).
Proof.
  intros R G H. pose proof (reachable_document _ _ _ _ _ _ R H) as E.
  destruct (reachable_invariant _ _ _ _ R) as [[_ [Rt _]] _].
  destruct (startup_world env general_routes) as [_ [_ [_ [R0 _]]]].
  rewrite R0 in Rt.
  destruct (customize_path_keys _ _ _ E
              (GeneratorFacts.get_openapi_paths (openapi_args w)))
    as [ps [P K]].
  exists ps. split; [exact P|]. rewrite K. intros I.
  apply GeneratorFacts.paths_keys in I as [[] | [r [I [F Q]]]].
  cbn [arg_routes openapi_args] in I. rewrite Rt in I.
  apply in_app_or in I as [I | [<- | []]].
  - exact (G r I F Q).
  - discriminate.
Qed.

Lemma healthcheck_not_in_description_witness :
  reachable Generator.get_openapi [] Sample.general_routes Sample.world
  /\ exists paths,
       getitem Sample.document "paths" = Ok (JObj paths)
       /\ ~ In "/healthcheck" (Dict.keys paths).
Proof.
  split; [apply reach_startup|].
  apply (healthcheck_not_in_description [] Sample.general_routes Sample.world
           (snd Sample.first_call) Sample.document).
  - apply reach_startup.
  - intros r [<- | []] _. discriminate.
  - vm_compute. reflexivity.
Defined.

(** * Further properties of the module *)

(** ** More on chained updates *)

(** A successful chained update found its object, the operation succeeded on
    it, and its result sits under the same chain. *)
Lemma modify_at_inv p op d d' :
  modify_at p op d = Ok d' ->
  exists o o', getpath d p = Ok o /\ op o = Ok o' /\ getpath d' p = Ok o'.
Proof.
  revert d d'; induction p as [|k p IH]; intros d d' H.
  - exists d, d'. now repeat split.
  - apply modify_at_child in H as [c [c' [Hc [Hm Hs]]]].
    destruct (IH c c' Hm) as [o [o' [G [Hop G']]]].
    exists o, o'. simpl. rewrite Hc, (getitem_setitem_same _ _ _ _ Hs).
    now repeat split.
Qed.

(** After a chained update every proper prefix of the chain leads to a
    dict. *)
Lemma modify_at_prefix_dict q k r op d d' :
  modify_at (q ++ k :: r) op d = Ok d' -> dict_at d' q.
Proof.
  intros H. rewrite modify_at_app in H.
  apply modify_at_inv in H as [o [o' [_ [Hop G]]]].
  apply modify_at_child in Hop as [c [c' [_ [_ Hs]]]].
  apply setitem_ok in Hs as [fs [_ ->]]. now exists (Dict.set k c' fs).
Qed.

Lemma pop_at_ok p k d v :
  getpath d (p ++ [ k ]) = Ok v -> exists d', pop_at p k d = Ok (v, d').
Proof.
  revert d; induction p as [|k0 p IH]; intros d; simpl.
  - destruct d; simpl; try discriminate.
    destruct (Dict.get k fields); simpl; [|discriminate].
    intros H. injection H as ->. now eexists.
  - destruct (getitem d k0) as [c|e] eqn:Hc; simpl; [|discriminate].
    intros H. destruct (IH c H) as [c' Hp]. rewrite Hp. simpl.
    destruct (getitem_ok _ _ _ Hc) as [fs [-> _]]. simpl. now eexists.
Qed.

(** The popped key is gone. *)
Lemma pop_at_removed p k d v d' :
  pop_at p k d = Ok (v, d') -> getpath d' (p ++ [ k ]) = Err (KeyError k).
Proof.
  intros H. apply pop_at_modify in H as [H _].
  apply modify_at_inv in H as [o [o' [_ [Hop G]]]].
  rewrite getpath_app, G. simpl.
  unfold pop_op in Hop. destruct o; simpl in Hop; try discriminate.
  destruct (Dict.get k fields); simpl in Hop; [|discriminate].
  injection Hop as <-. simpl. now rewrite DictFacts.get_remove_same.
Qed.

Lemma dict_at_getitem d k c :
  getitem d k = Ok c -> dict_at d [].
Proof. intros H. apply getitem_ok in H as [fs [-> _]]. now exists fs. Qed.

(** A chain that can be read beyond [p] leads to a dict at [p]. *)
Lemma getpath_prefix_dict d p k r v :
  getpath d (p ++ k :: r) = Ok v -> dict_at d p.
Proof.
  rewrite getpath_app. intros H. apply bind_ok in H as [c [G H]].
  simpl in H. apply bind_ok in H as [c' [Hc _]].
  apply getitem_ok in Hc as [fs [-> _]]. now exists fs.
Qed.

(** ** What the customisation leaves alone *)

Lemma customize_root_frame b d k r :
  customize b = Ok d ->
  k <> "security" -> k <> "x-speakeasy-retries" ->
  k <> "paths" -> k <> "components" ->
  getpath d (k :: r) = getpath b (k :: r).
Proof.
  intros H K1 K2 K3 K4.
  apply String.eqb_neq in K1, K2, K3, K4.
  apply customize_steps in H.
  destruct H as [d1 d2 d3 d4 d5 body d6 d7 d8 d9 H1 H2 H3 H4 H5 H6 H7 H8 H9 H10].
  apply pop_at_modify in H6 as [H6 _].
  frame_rewrite (modify_at_diverge [] "components" _ _ k r d9 d K4 H10).
  frame_rewrite (modify_at_diverge [] "components" _ _ k r d8 d9 K4 H9).
  frame_rewrite (modify_at_diverge [] "components" _ _ k r d7 d8 K4 H8).
  frame_rewrite (modify_at_diverge [] "components" _ _ k r d6 d7 K4 H7).
  frame_rewrite (modify_at_diverge [] "components" _ _ k r d5 d6 K4 H6).
  frame_rewrite (modify_at_diverge [] "components" _ _ k r d4 d5 K4 H5).
  frame_rewrite (modify_at_diverge [] "paths" _ _ k r d3 d4 K3 H4).
  frame_rewrite (modify_at_diverge [] "paths" _ _ k r d2 d3 K3 H3).
  exact (root_assignments_frame b d1 d2 k r K1 K2 H1 H2).
Qed.

Lemma customize_paths_frame b d r :
  customize b = Ok d ->
  (exists p r', r = p :: r' /\ p <> partition_path) \/
  (exists m r', r = partition_path :: m :: r' /\ m <> "post") \/
  (exists k r', r = partition_path :: "post" :: k :: r'
                /\ k <> "requestBody" /\ k <> "responses") ->
  getpath d ("paths" :: r) = getpath b ("paths" :: r).
Proof.
  intros H C. apply customize_steps in H.
  destruct H as [d1 d2 d3 d4 d5 body d6 d7 d8 d9 H1 H2 H3 H4 H5 H6 H7 H8 H9 H10].
  rewrite (components_statements_frame d4 d5 body d6 d7 d8 d9 d r
             H5 H6 H7 H8 H9 H10).
  rewrite <- (root_assignments_frame b d1 d2 "paths" r eq_refl eq_refl H1 H2).
  destruct C as [[p [r' [-> P]]] | [[m [r' [-> M]]] | [k [r' [-> [K1 K2]]]]]].
  - apply String.eqb_neq in P.
    frame_rewrite (modify_at_diverge [ "paths" ] partition_path _ _ p r'
                     d3 d4 P H4).
    now frame_rewrite (modify_at_diverge [ "paths" ] partition_path _ _ p r'
                         d2 d3 P H3).
  - apply String.eqb_neq in M.
    frame_rewrite (modify_at_diverge [ "paths"; partition_path ] "post" _ _
                     m r' d3 d4 M H4).
    now frame_rewrite (modify_at_diverge [ "paths"; partition_path ] "post" _ _
                         m r' d2 d3 M H3).
  - apply String.eqb_neq in K1, K2.
    frame_rewrite (modify_at_diverge [ "paths"; partition_path; "post" ]
                     "responses" _ _ k r' d3 d4 K2 H4).
    now frame_rewrite (modify_at_diverge [ "paths"; partition_path; "post" ]
                         "requestBody" _ _ k r' d2 d3 K1 H3).
Qed.

(** The [components] subtree of the baseline, as the statements on it find
    it. *)
Lemma components_before b d1 d2 d3 d4 r :
  setitem b "security" security = Ok d1 ->
  setitem d1 "x-speakeasy-retries" retries = Ok d2 ->
  modify_at request_schema_path
    (fun o => setitem o "$ref" (JStr partition_parameters_ref)) d2 = Ok d3 ->
  modify_at response_content_path
    (fun o => setitem o "schema" (JObj [ ("$ref", JStr elements_ref) ])) d3
  = Ok d4 ->
  getpath d4 ("components" :: r) = getpath b ("components" :: r).
Proof.
  intros H1 H2 H3 H4.
  frame_rewrite (modify_at_diverge [] "paths" _ _ "components" r d3 d4
                   eq_refl H4).
  frame_rewrite (modify_at_diverge [] "paths" _ _ "components" r d2 d3
                   eq_refl H3).
  exact (root_assignments_frame b d1 d2 "components" r eq_refl eq_refl H1 H2).
Qed.

Lemma customize_components_frame b d k r :
  customize b = Ok d ->
  k <> "Body_partition" -> k <> "partition_parameters" -> k <> "Elements" ->
  getpath d (schemas_path ++ k :: r) = getpath b (schemas_path ++ k :: r).
Proof.
  intros H K1 K2 K3. apply String.eqb_neq in K1, K2, K3.
  apply customize_steps in H.
  destruct H as [d1 d2 d3 d4 d5 body d6 d7 d8 d9 H1 H2 H3 H4 H5 H6 H7 H8 H9 H10].
  apply pop_at_modify in H6 as [H6 _].
  unfold schemas_path. cbn [app].
  frame_rewrite (modify_at_set_frame [ "components"; "schemas" ] "Elements" _
                   k r d9 d K3 H10).
  frame_rewrite (modify_at_diverge [ "components"; "schemas" ]
                   "partition_parameters" [] _ k r d8 d9 K2 H9).
  frame_rewrite (modify_at_diverge [ "components"; "schemas" ]
                   "partition_parameters" [] _ k r d7 d8 K2 H8).
  frame_rewrite (modify_at_set_frame [ "components"; "schemas" ]
                   "partition_parameters" _ k r d6 d7 K2 H7).
  frame_rewrite (modify_at_frame [ "components"; "schemas" ]
                   (pop_op "Body_partition") k r d5 d6
                   (preserves_pop_op k "Body_partition" K1) H6).
  frame_rewrite (modify_at_set_frame [ "components" ] "securitySchemes" _
                   "schemas" (k :: r) d4 d5 eq_refl H5).
  exact (components_before b d1 d2 d3 d4 _ H1 H2 H3 H4).
Qed.

(** The component is renamed: the old name is gone, and under the new name
    every field but [title] and [properties] is the baseline's. *)
Lemma customize_rename b d :
  customize b = Ok d ->
  getpath d body_partition_path = Err (KeyError "Body_partition")
  /\ forall k r,
       k <> "title" -> k <> "properties" ->
       getpath d (partition_parameters_path ++ k :: r)
       = getpath b (body_partition_path ++ k :: r).
Proof.
  intros H. apply customize_steps in H.
  destruct H as [d1 d2 d3 d4 d5 body d6 d7 d8 d9 H1 H2 H3 H4 H5 H6 H7 H8 H9 H10].
  split.
  - pose proof (pop_at_removed _ _ _ _ _ H6) as R.
    unfold schemas_path in R. cbn [app] in R.
    unfold body_partition_path.
    frame_rewrite (modify_at_set_frame [ "components"; "schemas" ] "Elements" _
                     "Body_partition" [] d9 d eq_refl H10).
    frame_rewrite (modify_at_diverge [ "components"; "schemas" ]
                     "partition_parameters" [] _ "Body_partition" [] d8 d9
                     eq_refl H9).
    frame_rewrite (modify_at_diverge [ "components"; "schemas" ]
                     "partition_parameters" [] _ "Body_partition" [] d7 d8
                     eq_refl H8).
    frame_rewrite (modify_at_set_frame [ "components"; "schemas" ]
                     "partition_parameters" _ "Body_partition" [] d6 d7
                     eq_refl H7).
    exact R.
  - intros k r K1 K2. apply String.eqb_neq in K1, K2.
    unfold partition_parameters_path, body_partition_path. cbn [app].
    frame_rewrite (modify_at_set_frame [ "components"; "schemas" ] "Elements" _
                     "partition_parameters" (k :: r) d9 d eq_refl H10).
    frame_rewrite (modify_at_set_frame
                     [ "components"; "schemas"; "partition_parameters" ]
                     "properties" _ k r d8 d9 K2 H9).
    frame_rewrite (modify_at_set_frame
                     [ "components"; "schemas"; "partition_parameters" ]
                     "title" _ k r d7 d8 K1 H8).
    pose proof (modify_at_set_get _ _ _ _ _ H7) as G7.
    apply pop_at_modify in H6 as [_ G5].
    unfold schemas_path in G5, G7. cbn [app] in G5, G7.
    change [ "components"; "schemas"; "partition_parameters"; k ]
      with ([ "components"; "schemas"; "partition_parameters" ] ++ [ k ])%list.
    change ("components" :: "schemas" :: "partition_parameters" :: k :: r)
      with ([ "components"; "schemas"; "partition_parameters" ] ++ k :: r)%list.
    rewrite getpath_app, G7. cbn [bind].
    rewrite <- (components_before b d1 d2 d3 d4 _ H1 H2 H3 H4).
    frame_rewrite_in
      (modify_at_set_frame [ "components" ] "securitySchemes" _ "schemas"
         [ "Body_partition" ] d4 d5 eq_refl H5) G5.
    change ("components" :: "schemas" :: "Body_partition" :: k :: r)
      with ([ "components"; "schemas"; "Body_partition" ] ++ k :: r)%list.
    now rewrite getpath_app, G5.
Qed.

(** The values the customisation writes. *)
Lemma customize_injections b d :
  customize b = Ok d ->
  getitem d "security" = Ok security
  /\ getitem d "x-speakeasy-retries" = Ok retries
  /\ getpath d [ "components"; "securitySchemes" ] = Ok securitySchemes
  /\ getpath d (partition_parameters_path ++ [ "title" ])
     = Ok (JStr "Partition Parameters").
Proof.
  intros H. apply customize_steps in H.
  destruct H as [d1 d2 d3 d4 d5 body d6 d7 d8 d9 H1 H2 H3 H4 H5 H6 H7 H8 H9 H10].
  assert (forall k, String.eqb k "paths" = false ->
                    String.eqb k "components" = false ->
                    getitem d k = getitem d2 k) as Root.
  { intros k K3 K4. apply pop_at_modify in H6 as [H6 _].
    rewrite <- (bind_ret (getitem d k)), <- (bind_ret (getitem d2 k)).
    change (getpath d [ k ] = getpath d2 [ k ]).
    frame_rewrite (modify_at_diverge [] "components" _ _ k [] d9 d K4 H10).
    frame_rewrite (modify_at_diverge [] "components" _ _ k [] d8 d9 K4 H9).
    frame_rewrite (modify_at_diverge [] "components" _ _ k [] d7 d8 K4 H8).
    frame_rewrite (modify_at_diverge [] "components" _ _ k [] d6 d7 K4 H7).
    frame_rewrite (modify_at_diverge [] "components" _ _ k [] d5 d6 K4 H6).
    frame_rewrite (modify_at_diverge [] "components" _ _ k [] d4 d5 K4 H5).
    frame_rewrite (modify_at_diverge [] "paths" _ _ k [] d3 d4 K3 H4).
    now frame_rewrite (modify_at_diverge [] "paths" _ _ k [] d2 d3 K3 H3). }
  repeat split.
  - rewrite Root by reflexivity.
    rewrite (getitem_setitem_other d1 "security" "x-speakeasy-retries" _ d2
               eq_refl H2).
    exact (getitem_setitem_same _ _ _ _ H1).
  - rewrite Root by reflexivity. exact (getitem_setitem_same _ _ _ _ H2).
  - apply pop_at_modify in H6 as [H6 _].
    frame_rewrite (modify_at_diverge [ "components" ] "schemas" [] _
                     "securitySchemes" [] d9 d eq_refl H10).
    frame_rewrite (modify_at_diverge [ "components" ] "schemas"
                     [ "partition_parameters" ] _
                     "securitySchemes" [] d8 d9 eq_refl H9).
    frame_rewrite (modify_at_diverge [ "components" ] "schemas"
                     [ "partition_parameters" ] _
                     "securitySchemes" [] d7 d8 eq_refl H8).
    frame_rewrite (modify_at_diverge [ "components" ] "schemas" [] _
                     "securitySchemes" [] d6 d7 eq_refl H7).
    frame_rewrite (modify_at_diverge [ "components" ] "schemas" [] _
                     "securitySchemes" [] d5 d6 eq_refl H6).
    exact (modify_at_set_get _ _ _ _ _ H5).
  - unfold partition_parameters_path. cbn [app].
    frame_rewrite (modify_at_set_frame [ "components"; "schemas" ] "Elements" _
                     "partition_parameters" [ "title" ] d9 d eq_refl H10).
    frame_rewrite (modify_at_set_frame
                     [ "components"; "schemas"; "partition_parameters" ]
                     "properties" _ "title" [] d8 d9 eq_refl H9).
    exact (modify_at_set_get _ _ _ _ _ H8).
Qed.

(** ** When the customisation succeeds *)

Lemma customize_ok_dicts b d :
  customize b = Ok d ->
  dict_at b request_schema_path
  /\ dict_at b response_content_path
  /\ dict_at b body_partition_path.
Proof.
  intros H. apply customize_steps in H.
  destruct H as [d1 d2 d3 d4 d5 body d6 d7 d8 d9 H1 H2 H3 H4 H5 H6 H7 H8 H9 H10].
  pose proof (fun k r K1 K2 =>
                root_assignments_frame b d1 d2 k r K1 K2 H1 H2) as Root.
  repeat split.
  - destruct (modify_at_inv _ _ _ _ H3) as [o [o' [G [Hop _]]]].
    apply setitem_ok in Hop as [fs [-> _]]. exists fs.
    unfold request_schema_path in *. now rewrite <- (Root "paths").
  - destruct (modify_at_inv _ _ _ _ H4) as [o [o' [G [Hop _]]]].
    apply setitem_ok in Hop as [fs [-> _]]. exists fs.
    unfold response_content_path in *.
    frame_rewrite_in
      (modify_at_diverge [ "paths"; partition_path; "post" ] "requestBody"
         [ "content"; "multipart/form-data"; "schema" ] _ "responses"
         [ "200"; "content"; "application/json" ] d2 d3 eq_refl H3) G.
    now rewrite <- (Root "paths").
  - destruct (modify_at_inv _ _ _ _ H8) as [o [o' [G [Hop _]]]].
    apply setitem_ok in Hop as [fs [-> _]]. exists fs.
    pose proof (modify_at_set_get _ _ _ _ _ H7) as G7.
    unfold partition_parameters_path, schemas_path in *. cbn [app] in G7.
    rewrite G7 in G. injection G as ->.
    apply pop_at_modify in H6 as [_ G5]. cbn [app] in G5.
    frame_rewrite_in
      (modify_at_set_frame [ "components" ] "securitySchemes" _ "schemas"
         [ "Body_partition" ] d4 d5 eq_refl H5) G5.
    rewrite (components_before b d1 d2 d3 d4 _ H1 H2 H3 H4) in G5.
    exact G5.
Qed.

Lemma customize_total b :
  dict_at b request_schema_path ->
  dict_at b response_content_path ->
  dict_at b body_partition_path ->
  exists d, customize b = Ok d.
Proof.
  intros [fs1 Q] [fs2 P] [fs3 B]. unfold customize.
  destruct b as [| | | | | |fs0]; try discriminate.
  cbn [setitem bind].
  set (d1 := JObj (Dict.set "security" security fs0)).
  set (d2 := JObj (Dict.set "x-speakeasy-retries" retries _)).
  pose proof (fun k r K1 K2 =>
                root_assignments_frame (JObj fs0) d1 d2 k r K1 K2
                  eq_refl eq_refl) as Root.
  unfold request_schema_path in Q. rewrite <- (Root "paths") in Q by reflexivity.
  destruct (modify_at_ok request_schema_path
              (fun o => setitem o "$ref" (JStr partition_parameters_ref))
              d2 (JObj fs1) _ Q eq_refl) as [d3 H3].
  rewrite H3. cbn [bind].
  unfold response_content_path in P. rewrite <- (Root "paths") in P by reflexivity.
  frame_rewrite_in
    (eq_sym (modify_at_diverge [ "paths"; partition_path; "post" ]
               "requestBody" [ "content"; "multipart/form-data"; "schema" ] _
               "responses" [ "200"; "content"; "application/json" ] d2 d3
               eq_refl H3)) P.
  destruct (modify_at_ok response_content_path
              (fun o => setitem o "schema" (JObj [ ("$ref", JStr elements_ref) ]))
              d3 (JObj fs2) _ P eq_refl) as [d4 H4].
  rewrite H4. cbn [bind].
  unfold body_partition_path in B.
  rewrite <- (components_before (JObj fs0) d1 d2 d3 d4 _ eq_refl eq_refl H3 H4)
    in B.
  destruct (getpath_prefix_dict d4 [ "components" ] "schemas"
              [ "Body_partition" ] _ B) as [cf C].
  destruct (modify_at_ok [ "components" ]
              (fun o => setitem o "securitySchemes" securitySchemes)
              d4 (JObj cf) _ C eq_refl) as [d5 H5].
  rewrite H5. cbn [bind].
  frame_rewrite_in
    (eq_sym (modify_at_set_frame [ "components" ] "securitySchemes" _ "schemas"
               [ "Body_partition" ] d4 d5 eq_refl H5)) B.
  destruct (pop_at_ok schemas_path "Body_partition" d5 _ B) as [d6 H6].
  rewrite H6. cbn [bind].
  destruct (pop_at_modify _ _ _ _ _ H6) as [M6 _].
  destruct (modify_at_inv _ _ _ _ M6) as [o [o' [_ [Hop G6]]]].
  assert (exists sf, o' = JObj sf) as [sf ->].
  { unfold pop_op in Hop. destruct o; simpl in Hop; try discriminate.
    destruct (Dict.get "Body_partition" fields); simpl in Hop;
      [|discriminate].
    injection Hop as <-. now eexists. }
  destruct (modify_at_ok schemas_path
              (fun o => setitem o "partition_parameters" (JObj fs3))
              d6 (JObj sf) _ G6 eq_refl) as [d7 H7].
  rewrite H7. cbn [bind].
  pose proof (modify_at_set_get _ _ _ _ _ H7) as G7.
  destruct (modify_at_ok partition_parameters_path
              (fun o => setitem o "title" (JStr "Partition Parameters"))
              d7 (JObj fs3) _ G7 eq_refl) as [d8 H8].
  rewrite H8. cbn [bind].
  destruct (modify_at_inv _ _ _ _ H8) as [o8 [o8' [G8a [Hop8 G8]]]].
  change (getpath d7 partition_parameters_path = Ok (JObj fs3)) in G7.
  rewrite G7 in G8a. injection G8a as <-. cbn [setitem] in Hop8.
  injection Hop8 as <-.
  destruct (modify_at_ok partition_parameters_path
              (fun o => setitem o "properties" partition_properties)
              d8 _ _ G8 eq_refl) as [d9 H9].
  rewrite H9. cbn [bind].
  destruct (modify_at_prefix_dict [ "components"; "schemas" ]
              "partition_parameters" [] _ d8 d9 H9) as [sf9 G9].
  destruct (modify_at_ok schemas_path
              (fun o => setitem o "Elements" elements_schema)
              d9 (JObj sf9) _ G9 eq_refl) as [d10 H10].
  rewrite H10. cbn [bind]. now exists d10.
Qed.


(** ** Splitting and joining *)

Lemma string_app_nil_r (s : string) : s ++ "" = s.
Proof. induction s as [|a s IH]; simpl; [reflexivity | now rewrite IH]. Qed.

Lemma string_app_assoc (s t u : string) : (s ++ t) ++ u = s ++ t ++ u.
Proof. induction s as [|a s IH]; simpl; [reflexivity | now rewrite IH]. Qed.

Lemma occurs_app c (s t : string) :
  occurs c (s ++ t) = occurs c s || occurs c t.
Proof.
  induction s as [|a s IH]; simpl; [reflexivity|].
  now rewrite IH, orb_assoc.
Qed.

Lemma split_acc_cons c cur s : exists x l, PyStr.split_acc c cur s = x :: l.
Proof.
  revert cur; induction s as [|a s IH]; intros cur; simpl.
  - now exists cur, [].
  - destruct (Ascii.eqb a c); [now eexists; eexists | apply IH].
Qed.

Lemma split_acc_join c cur s :
  join (String c "") (PyStr.split_acc c cur s) = cur ++ s.
Proof.
  revert cur; induction s as [|a s IH]; intros cur; simpl.
  - now rewrite string_app_nil_r.
  - destruct (Ascii.eqb a c) eqn:E.
    + apply Ascii.eqb_eq in E. subst a.
      pose proof (IH "") as J.
      destruct (split_acc_cons c "" s) as [x [l X]]. rewrite X in *.
      cbn [join]. cbn [join] in J. now rewrite J.
    + rewrite IH, string_app_assoc. reflexivity.
Qed.

Lemma split_acc_no_sep c cur s o :
  occurs c cur = false -> In o (PyStr.split_acc c cur s) ->
  occurs c o = false.
Proof.
  revert cur; induction s as [|a s IH]; intros cur C; simpl.
  - now intros [<- | []].
  - destruct (Ascii.eqb a c) eqn:E.
    + intros [<- | I]; [exact C | now apply (IH "")].
    + apply IH. rewrite occurs_app, C. simpl. now rewrite E.
Qed.

Lemma split_acc_length c cur s :
  List.length (PyStr.split_acc c cur s) = S (count_char c s).
Proof.
  revert cur; induction s as [|a s IH]; intros cur; simpl; [reflexivity|].
  destruct (Ascii.eqb a c); simpl; now rewrite IH.
Qed.

(** ** Module initialisation, continued *)

Lemma startup_disabled env general_routes :
  disabled_loggers (snd (startup env general_routes)) =
  match environ_get env "ENV" with
  | Some v =>
      if existsb (String.eqb v) [ "dev"; "prod" ] then [ "uvicorn.error" ]
      else []
  | None => []
  end.
Proof.
  unfold startup, module_init.
  destruct (environ_get env "ENV") as [v|];
    [destruct (existsb (String.eqb v) [ "dev"; "prod" ])|];
    (destruct (environ_get env "ALLOWED_ORIGINS") as [o|];
     [destruct (PyStr.truthy o)|]);
    reflexivity.
Qed.


Lemma env_is_deployment v :
  existsb (String.eqb v) [ "dev"; "prod" ] = true <-> v = "dev" \/ v = "prod".
Proof.
  cbn [existsb]. rewrite orb_false_r, orb_true_iff, !String.eqb_eq. tauto.
Qed.

(** ** Going on from a world *)


Lemma later_cache g w w' doc :
  later g w w' ->
  openapi_schema w = Some doc -> truthy doc = true ->
  openapi_schema w' = Some doc.
Proof.
  intros L C T.
  induction L as [| w' L IH | w' request e L IH | w' request L IH
                  | w' record L IH].
  - exact C.
  - now rewrite (custom_openapi_cached g w' doc IH T).
  - destruct (exception_handler_fields request e w') as [F0 _]. congruence.
  - exact IH.
  - destruct (handle_fields record w') as [F0 _]. congruence.
Qed.


Lemma custom_openapi_fresh g w :
  unset (openapi_schema w) ->
  custom_openapi g w =
  match customize (g (openapi_args w)) with
  | Ok d =>
      (Ok d,
       with_openapi_schema (Some d)
         (with_generator_runs (S (generator_runs w)) w))
  | Err e => (Err e, with_generator_runs (S (generator_runs w)) w)
  end.
Proof. intros U. now rewrite custom_openapi_unset, synthesize_eq. Qed.

(** * Further theorems *)

(** X1.  With an unset cache the synthesizer returns a document exactly when
    the baseline holds a dict at each of the three places the customisation
    writes into: the multipart request-body schema of the partition
    operation, the [application/json] content of its 200 response, and the
    component [Body_partition]. *)
Theorem synthesis_succeeds_iff
  (get_openapi : OpenAPIArgs -> json) (w : World) :
  unset (openapi_schema w) ->
  (exists d w1, custom_openapi get_openapi w = (Ok d, w1))
  <-> dict_at (get_openapi (openapi_args w)) request_schema_path
      /\ dict_at (get_openapi (openapi_args w)) response_content_path
      /\ dict_at (get_openapi (openapi_args w)) body_partition_path.
Proof.
  intros U. rewrite (custom_openapi_fresh _ _ U). split.
  - intros [d [w1 H]].
    destruct (customize (get_openapi (openapi_args w))) as [d'|e] eqn:E;
      [|discriminate].
    now apply (customize_ok_dicts _ d').
  - intros [Q [P B]]. destruct (customize_total _ Q P B) as [d E].
    rewrite E. now eexists; eexists.
Qed.

Lemma synthesis_succeeds_iff_witness :
  unset (openapi_schema Sample.world)
  /\ exists d w1,
       custom_openapi Generator.get_openapi Sample.world = (Ok d, w1).
Proof.
  split; [exact I|].
  apply (proj2 (synthesis_succeeds_iff Generator.get_openapi Sample.world I)).
  repeat split; eexists; vm_compute; reflexivity.
Defined.

(** X2.  With an unset cache, when the chain of subscripts down to the
    request-body schema of the partition operation cannot be read from the
    baseline, the synthesizer raises the very exception of that chain (the
    [KeyError] of the first missing key) and leaves the cache as it is. *)
Theorem synthesis_raises_path_error
  (get_openapi : OpenAPIArgs -> json) (w : World) (e : error) :
  unset (openapi_schema w) ->
  getpath (get_openapi (openapi_args w)) request_schema_path = Err e ->
  custom_openapi get_openapi w =
  (Err e, with_generator_runs (S (generator_runs w)) w).
Proof.
  intros U H. rewrite (custom_openapi_fresh _ _ U).
  now rewrite (customize_reports_request_chain _ _ H).
Qed.

Lemma synthesis_raises_path_error_witness :
  unset (openapi_schema Sample.broken_world)
  /\ fst (custom_openapi Generator.get_openapi Sample.broken_world)
     = Err (KeyError "/general/v0/general").
Proof.
  split; [exact I|].
  rewrite (synthesis_raises_path_error Generator.get_openapi
             Sample.broken_world (KeyError "/general/v0/general") I);
    [reflexivity | vm_compute; reflexivity].
Defined.

(** X3.  With an unset cache and a readable request-body schema, when the
    chain down to the [application/json] content of the 200 response cannot
    be read from the baseline, the synthesizer raises the exception of that
    chain. *)
Theorem synthesis_raises_response_error
  (get_openapi : OpenAPIArgs -> json) (w : World) (e : error) :
  unset (openapi_schema w) ->
  dict_at (get_openapi (openapi_args w)) request_schema_path ->
  getpath (get_openapi (openapi_args w)) response_content_path = Err e ->
  custom_openapi get_openapi w =
  (Err e, with_generator_runs (S (generator_runs w)) w).
Proof.
  intros U [fs Q] H. rewrite (custom_openapi_fresh _ _ U).
  now rewrite (customize_reports_response_chain _ fs _ Q H).
Qed.

Lemma synthesis_raises_response_error_witness :
  unset (openapi_schema Cases.world_without_200)
  /\ fst (custom_openapi Generator.get_openapi Cases.world_without_200)
     = Err (KeyError "200").
Proof.
  split; [exact I|].
  rewrite (synthesis_raises_response_error Generator.get_openapi
             Cases.world_without_200 (KeyError "200") I);
    [reflexivity | eexists; vm_compute; reflexivity | vm_compute; reflexivity].
Defined.

(** X4.  With an unset cache and both chains of the partition operation
    readable, when [components.schemas.Body_partition] is missing from the
    baseline (the component, [schemas] or [components] itself), the
    synthesizer raises the [KeyError] of the missing key. *)
Theorem synthesis_raises_missing_component
  (get_openapi : OpenAPIArgs -> json) (w : World) (k : string) :
  unset (openapi_schema w) ->
  dict_at (get_openapi (openapi_args w)) request_schema_path ->
  dict_at (get_openapi (openapi_args w)) response_content_path ->
  getpath (get_openapi (openapi_args w)) body_partition_path
  = Err (KeyError k) ->
  custom_openapi get_openapi w =
  (Err (KeyError k), with_generator_runs (S (generator_runs w)) w).
Proof.
  intros U [fs1 Q] [fs2 P] H. rewrite (custom_openapi_fresh _ _ U).
  now rewrite (customize_reports_missing_component _ fs1 fs2 _ Q P H).
Qed.

Lemma synthesis_raises_missing_component_witness :
  unset (openapi_schema Cases.world_other_component)
  /\ fst (custom_openapi Generator.get_openapi Cases.world_other_component)
     = Err (KeyError "Body_partition").
Proof.
  split; [exact I|].
  rewrite (synthesis_raises_missing_component Generator.get_openapi
             Cases.world_other_component "Body_partition" I);
    [reflexivity | eexists; vm_compute; reflexivity
     | eexists; vm_compute; reflexivity | vm_compute; reflexivity].
Defined.

(** X5.  Every description the synthesizer returns carries the security
    requirement and the retry policy at its root, the [ApiKeyAuth] scheme
    under [components.securitySchemes], and the title
    ["Partition Parameters"] on the renamed component. *)
Theorem description_metadata
  (get_openapi : OpenAPIArgs -> json) (env : environ)
  (general_routes : list APIRoute) (w w1 : World) (d : json) :
  reachable get_openapi env general_routes w ->
  custom_openapi get_openapi w = (Ok d, w1) ->
  getitem d "security" = Ok (JArr [ JObj [ ("ApiKeyAuth", JArr []) ] ])
  /\ getitem d "x-speakeasy-retries" = Ok retries
  /\ getpath d [ "components"; "securitySchemes" ] = Ok securitySchemes
  /\ getpath d [ "components"; "schemas"; "partition_parameters"; "title" ]
     = Ok (JStr "Partition Parameters").
Proof.
  intros R H. pose proof (reachable_document _ _ _ _ _ _ R H) as E.
  exact (customize_injections _ _ E).
Qed.

Lemma description_metadata_witness :
  reachable Generator.get_openapi [] Sample.general_routes Sample.world
  /\ getitem Sample.document "x-speakeasy-retries" = Ok retries.
Proof.
  split; [apply reach_startup|].
  assert (custom_openapi Generator.get_openapi Sample.world
          = (Ok Sample.document, snd Sample.first_call))
    as H by (vm_compute; reflexivity).
  exact (proj1 (proj2 (description_metadata Generator.get_openapi []
                         Sample.general_routes Sample.world _ _
                         (reach_startup _ _ _) H))).
Defined.

(** X6.  In every description the synthesizer returns the component
    [Body_partition] is gone from [components.schemas], and the component
    [partition_parameters] holds, for every field other than [title] and
    [properties], what the baseline held under [Body_partition]. *)
Theorem description_component_renamed
  (get_openapi : OpenAPIArgs -> json) (env : environ)
  (general_routes : list APIRoute) (w w1 : World) (d : json) :
  reachable get_openapi env general_routes w ->
  custom_openapi get_openapi w = (Ok d, w1) ->
  getpath d [ "components"; "schemas"; "Body_partition" ]
  = Err (KeyError "Body_partition")
  /\ forall k r,
       k <> "title" -> k <> "properties" ->
       getpath d ("components" :: "schemas" :: "partition_parameters" :: k :: r)
       = getpath (get_openapi (openapi_args w))
           ("components" :: "schemas" :: "Body_partition" :: k :: r).
Proof.
  intros R H. pose proof (reachable_document _ _ _ _ _ _ R H) as E.
  exact (customize_rename _ _ E).
Qed.

Lemma description_component_renamed_witness :
  reachable Generator.get_openapi [] Sample.general_routes Sample.world
  /\ getpath Sample.document
       [ "components"; "schemas"; "partition_parameters"; "type" ]
     = Ok (JStr "object").
Proof.
  split; [apply reach_startup|].
  assert (custom_openapi Generator.get_openapi Sample.world
          = (Ok Sample.document, snd Sample.first_call))
    as H by (vm_compute; reflexivity).
  rewrite (proj2 (description_component_renamed Generator.get_openapi []
                    Sample.general_routes Sample.world _ _
                    (reach_startup _ _ _) H) "type" []);
    [vm_compute; reflexivity | discriminate | discriminate].
Defined.

(** X7.  Outside the partition operation's request body and responses the
    synthesizer returns the baseline as the generator made it: every root
    item other than [security], [x-speakeasy-retries], [paths] and
    [components], every other path, every other method of the partition
    path, and every other member of its [post] operation. *)
Theorem description_keeps_baseline
  (get_openapi : OpenAPIArgs -> json) (env : environ)
  (general_routes : list APIRoute) (w w1 : World) (d : json) :
  reachable get_openapi env general_routes w ->
  custom_openapi get_openapi w = (Ok d, w1) ->
  let b := get_openapi (openapi_args w) in
  (forall k r,
     k <> "security" -> k <> "x-speakeasy-retries" ->
     k <> "paths" -> k <> "components" ->
     getpath d (k :: r) = getpath b (k :: r))
  /\ (forall p r,
        p <> "/general/v0/general" ->
        getpath d ("paths" :: p :: r) = getpath b ("paths" :: p :: r))
  /\ (forall m r,
        m <> "post" ->
        getpath d ("paths" :: "/general/v0/general" :: m :: r)
        = getpath b ("paths" :: "/general/v0/general" :: m :: r))
  /\ (forall k r,
        k <> "requestBody" -> k <> "responses" ->
        getpath d ("paths" :: "/general/v0/general" :: "post" :: k :: r)
        = getpath b ("paths" :: "/general/v0/general" :: "post" :: k :: r)).
Proof.
  intros R H b. pose proof (reachable_document _ _ _ _ _ _ R H) as E.
  repeat split.
  - intros k r. now apply customize_root_frame.
  - intros p r P. apply (customize_paths_frame _ _ _ E).
    left. now exists p, r.
  - intros m r M. apply (customize_paths_frame _ _ _ E).
    right. left. now exists m, r.
  - intros k r K1 K2. apply (customize_paths_frame _ _ _ E).
    right. right. now exists k, r.
Qed.

Lemma description_keeps_baseline_witness :
  reachable Generator.get_openapi [] Sample.general_routes Sample.world
  /\ getpath Sample.document [ "info"; "version" ] = Ok (JStr "0.0.57")
  /\ getpath Sample.document
       [ "paths"; "/general/v0/general"; "post"; "operationId" ]
     = Ok (JStr "partition").
Proof.
  split; [apply reach_startup|].
  assert (custom_openapi Generator.get_openapi Sample.world
          = (Ok Sample.document, snd Sample.first_call))
    as H by (vm_compute; reflexivity).
  pose proof (description_keeps_baseline Generator.get_openapi []
                Sample.general_routes Sample.world _ _
                (reach_startup _ _ _) H) as [A [_ [_ B]]].
  split.
  - rewrite A by discriminate. vm_compute. reflexivity.
  - rewrite B by discriminate. vm_compute. reflexivity.
Defined.

(** X8.  Every component schema of the baseline other than
    [Body_partition], [partition_parameters] and [Elements] is in the
    returned description unchanged. *)
Theorem description_keeps_other_components
  (get_openapi : OpenAPIArgs -> json) (env : environ)
  (general_routes : list APIRoute) (w w1 : World) (d : json) :
  reachable get_openapi env general_routes w ->
  custom_openapi get_openapi w = (Ok d, w1) ->
  forall k r,
    k <> "Body_partition" -> k <> "partition_parameters" -> k <> "Elements" ->
    getpath d ("components" :: "schemas" :: k :: r)
    = getpath (get_openapi (openapi_args w))
        ("components" :: "schemas" :: k :: r).
Proof.
  intros R H k r K1 K2 K3. pose proof (reachable_document _ _ _ _ _ _ R H) as E.
  exact (customize_components_frame _ _ k r E K1 K2 K3).
Qed.

Lemma description_keeps_other_components_witness :
  reachable Generator.get_openapi [] Cases.routes_two_components
    Cases.world_two_components
  /\ exists d w1,
       custom_openapi Generator.get_openapi Cases.world_two_components
       = (Ok d, w1)
       /\ getpath d [ "components"; "schemas"; "HTTPValidationError" ]
          = Ok (JObj [ ("type", JStr "object") ]).
Proof.
  split; [apply reach_startup|].
  destruct (custom_openapi Generator.get_openapi Cases.world_two_components)
    as [[d|e] w1] eqn:H; [|vm_compute in H; discriminate].
  exists d, w1. split; [reflexivity|].
  rewrite (description_keeps_other_components Generator.get_openapi []
             Cases.routes_two_components Cases.world_two_components w1 d
             (reach_startup _ _ _) H "HTTPValidationError" []);
    [vm_compute; reflexivity | discriminate | discriminate | discriminate].
Defined.



(** X10.  In the running application a logger is disabled exactly when it is
    [uvicorn.error] and the variable [ENV] is ["dev"] or ["prod"]; a record
    logged on a disabled logger is dropped and leaves the process state as
    it is. *)
Theorem uvicorn_error_logger_gate
  (env : environ) (general_routes : list APIRoute) (w : World) :
  Serving env general_routes w ->
  (forall n,
     is_disabled w n = true
     <-> n = "uvicorn.error"
         /\ (environ_get env "ENV" = Some "dev"
             \/ environ_get env "ENV" = Some "prod"))
  /\ forall record,
       is_disabled w (name record) = true -> snd (handle record w) = w.
Proof.
  intros [_ [_ [D _]]]. split.
  - intros n. unfold is_disabled. rewrite D, startup_disabled.
    destruct (environ_get env "ENV") as [v|].
    + destruct (existsb (String.eqb v) [ "dev"; "prod" ]) eqn:E.
      * apply env_is_deployment in E. cbn [existsb].
        rewrite orb_false_r, String.eqb_eq. split.
        -- intros ->. split; [reflexivity|].
           destruct E as [-> | ->]; auto.
        -- now intros [-> _].
      * cbn [existsb]. split; [discriminate|].
        intros [_ [V | V]]; injection V as ->; discriminate.
    + cbn [existsb]. split; [discriminate|].
      intros [_ [V | V]]; discriminate.
  - intros record H. unfold handle, modify, accepts. now rewrite H.
Qed.

Lemma uvicorn_error_logger_gate_witness :
  let w := snd (startup [ ("ENV", "prod") ] Sample.general_routes) in
  Serving [ ("ENV", "prod") ] Sample.general_routes w
  /\ is_disabled w "uvicorn.error" = true
  /\ is_disabled w logger = false.
Proof.
  cbv zeta. split; [apply serving_startup|].
  pose proof (uvicorn_error_logger_gate [ ("ENV", "prod") ]
                Sample.general_routes _ (serving_startup _ _)) as [H _].
  split; [|reflexivity].
  apply (proj2 (H "uvicorn.error")). split; [reflexivity | now right].
Defined.

(** X11.  In the running application the CORS middleware is installed
    exactly when [ALLOWED_ORIGINS] is set to a non-empty string: for such a
    value [v] the stack holds one middleware, with the fields of [v] as
    origins; for the empty string, as for an unset variable, the stack is
    empty and a response leaves as it was produced. *)
Theorem cors_installed_when_nonempty
  (env : environ) (general_routes : list APIRoute) (w : World) :
  Serving env general_routes w ->
  (forall v,
     environ_get env "ALLOWED_ORIGINS" = Some v -> v <> "" ->
     user_middleware w =
       [ {| allow_origins := PyStr.split v ","%char;
            allow_methods := [ "OPTIONS"; "POST" ];
            allow_headers := [ "Content-Type" ] |} ])
  /\ (environ_get env "ALLOWED_ORIGINS" = Some "" ->
      user_middleware w = []
      /\ forall cors_send request response,
           send cors_send w request response = response)
  /\ (user_middleware w <> [] ->
      exists v, environ_get env "ALLOWED_ORIGINS" = Some v /\ v <> "").
Proof.
  intros [Hm _].
  destruct (startup_world env general_routes) as [_ [_ [_ [_ [_ [_ M]]]]]].
  rewrite <- Hm in M. repeat split.
  - intros v E V. rewrite E in M. destruct v; [contradiction | exact M].
  - rewrite H in M. exact M.
  - intros cors_send request response. rewrite H in M.
    unfold send. cbn in M. now rewrite M.
  - intros N. destruct (environ_get env "ALLOWED_ORIGINS") as [v|];
      [|contradiction].
    exists v. split; [reflexivity|]. intros ->. contradiction.
Qed.

Lemma cors_installed_when_nonempty_witness :
  let w := snd (startup [ ("ALLOWED_ORIGINS", "") ] Sample.general_routes) in
  Serving [ ("ALLOWED_ORIGINS", "") ] Sample.general_routes w
  /\ user_middleware w = [].
Proof.
  cbv zeta. split; [apply serving_startup|].
  exact (proj1 (proj1 (proj2 (cors_installed_when_nonempty
                                [ ("ALLOWED_ORIGINS", "") ]
                                Sample.general_routes _
                                (serving_startup _ _))) eq_refl)).
Defined.

(** X12.  The allowed origins are the comma-separated fields of the value
    of [ALLOWED_ORIGINS], taken as they stand (nothing is trimmed or
    dropped): joined by commas they give the value back, none of them holds
    a comma, and there is one more of them than there are commas. *)
Theorem allowed_origins_fields
  (env : environ) (general_routes : list APIRoute) (w : World) (v : string) :
  Serving env general_routes w ->
  environ_get env "ALLOWED_ORIGINS" = Some v -> v <> "" ->
  exists m,
    user_middleware w = [ m ]
    /\ join "," (allow_origins m) = v
    /\ (forall o, In o (allow_origins m) -> occurs ","%char o = false)
    /\ List.length (allow_origins m) = S (count_char ","%char v).
Proof.
  intros [Hm _] E V.
  destruct (startup_world env general_routes) as [_ [_ [_ [_ [_ [_ M]]]]]].
  rewrite <- Hm, E in M.
  destruct v as [|a v]; [contradiction|]. cbn [PyStr.truthy] in M.
  eexists. split; [exact M|]. unfold cors_config, PyStr.split.
  cbn [allow_origins]. repeat split.
  - apply (split_acc_join ","%char "").
  - intros o. now apply split_acc_no_sep.
  - apply split_acc_length.
Qed.

Lemma allowed_origins_fields_witness :
  let env := [ ("ALLOWED_ORIGINS", "https://a.com, https://b.com,") ] in
  let w := snd (startup env Sample.general_routes) in
  Serving env Sample.general_routes w
  /\ map allow_origins (user_middleware w)
     = [ [ "https://a.com"; " https://b.com"; "" ] ].
Proof.
  cbv zeta. split; [apply serving_startup|].
  destruct (allowed_origins_fields
              [ ("ALLOWED_ORIGINS", "https://a.com, https://b.com,") ]
              Sample.general_routes _ "https://a.com, https://b.com,"
              (serving_startup _ _) eq_refl) as [m [M _]];
    [discriminate|].
  rewrite M. vm_compute in M. injection M as <-. reflexivity.
Defined.

(** X13.  The cached description is written once: when a reachable world
    holds a document in the cache, every world the process can go to
    afterwards holds the same document, and the synthesizer keeps returning
    it, whatever the generator would produce. *)
Theorem cache_written_once
  (get_openapi : OpenAPIArgs -> json) (env : environ)
  (general_routes : list APIRoute) (w w' : World) (doc : json) :
  reachable get_openapi env general_routes w ->
  openapi_schema w = Some doc ->
  later get_openapi w w' ->
  openapi_schema w' = Some doc
  /\ forall get_openapi', custom_openapi get_openapi' w' = (Ok doc, w').
Proof.
  intros R C L.
  destruct (reachable_invariant _ _ _ _ R) as [_ [N | [doc' [C' E]]]];
    [congruence|].
  assert (doc' = doc) as -> by congruence.
  pose proof (customize_truthy _ _ E) as T.
  pose proof (later_cache _ _ _ _ L C T) as C1.
  split; [exact C1|]. intros g'. now apply custom_openapi_cached.
Qed.

Lemma cache_written_once_witness :
  let w := snd Sample.first_call in
  let w' :=
    snd (exception_handler Sample.request (HTTPException 404 "Not Found") w) in
  reachable Generator.get_openapi [] Sample.general_routes w
  /\ openapi_schema w' = Some Sample.document.
Proof.
  cbv zeta.
  assert (reachable Generator.get_openapi [] Sample.general_routes
            (snd Sample.first_call)) as R
    by (apply reach_custom_openapi, reach_startup).
  split; [exact R|].
  refine (proj1 (cache_written_once Generator.get_openapi []
                   Sample.general_routes (snd Sample.first_call) _
                   Sample.document R _ _)).
  - vm_compute. reflexivity.
  - apply later_exception_handler, later_refl.
Defined.



(** X15.  Nothing after module initialisation changes the configuration:
    in every reachable world the middleware stack, the route table (the
    router's routes followed by the health route), the disabled loggers and
    the logger filters are those module initialisation installed. *)
Theorem configuration_is_fixed
  (get_openapi : OpenAPIArgs -> json) (env : environ)
  (general_routes : list APIRoute) (w : World) :
  reachable get_openapi env general_routes w ->
  user_middleware w = user_middleware (snd (startup env general_routes))
  /\ routes w = (general_routes ++ [ healthcheck_route ])%list
  /\ disabled_loggers w = disabled_loggers (snd (startup env general_routes))
  /\ logger_filters w = [ ("uvicorn.access", HealthCheckFilter);
                          ("uvicorn.access", MetricsCheckFilter) ].
Proof.
  intros R.
  destruct (reachable_invariant _ _ _ _ R) as [[S1 [S2 [S3 S4]]] _].
  destruct (startup_world env general_routes) as [_ [_ [_ [R0 [F0 _]]]]].
  repeat split; congruence.
Qed.

Lemma configuration_is_fixed_witness :
  reachable Generator.get_openapi [] Sample.general_routes
    (snd Sample.first_call)
  /\ routes (snd Sample.first_call)
     = [ Sample.partition_route; healthcheck_route ].
Proof.
  assert (reachable Generator.get_openapi [] Sample.general_routes
            (snd Sample.first_call)) as R
    by (apply reach_custom_openapi, reach_startup).
  split; [exact R|].
  exact (proj1 (proj2 (configuration_is_fixed Generator.get_openapi []
                         Sample.general_routes _ R))).
Defined.
